(** * PostList: the post gallery of the auto-text-assignment front end

    A shallow embedding of [src/Components/Postlist/Postlist.jsx]
    (the [PostList] React component): its view state, the memoised
    filter / sort / paginate pipeline, the data fetch with its error
    classifier, the favourites toggle and the delete handler.

    Conventions of the embedding:
    - JavaScript numbers that the component uses as integers (post and
      user identifiers, page numbers, HTTP status codes, array indices)
      are [Z]; the one true division, [sorted.length / postsPerPage],
      is a rational ([Q]) handed to [Math_ceil].
      An integer stands for a safe integer of JavaScript (below 2^53
      in absolute value), which is how it prints in plain decimal.
    - JavaScript strings are [string], a text standing for its UTF-8
      encoding, on which substring search agrees with the search on
      UTF-16 code units.  [toLowerCase] and [localeCompare] are functions
      of the engine, driven by Unicode tables that are no part of the
      source: the component takes them as parameters.
    - Arrays are [list]; [localStorage] is a finite map from keys to
      serialised values.
    - [setState (s => ...)] is a function on [State]. *)

From Stdlib Require Import ZArith QArith Qround Lia Bool List.
From Stdlib Require Import Sorted Permutation DecimalString.
From Stdlib Require DecimalPos DecimalZ.
From stdpp Require Import gmap strings.

Import ListNotations.
Local Open Scope Z_scope.

(** ** JavaScript strings *)

Module JsString.

(** [t.startsWith(s)] *)
Fixpoint startsWith (t s : string) : bool :=
  match s, t with
  | EmptyString, _ => true
  | String _ _, EmptyString => false
  | String a s', String b t' => Ascii.eqb a b && startsWith t' s'
  end.

(** [t.includes(s)]: [s] occurs in [t] at some position. *)
Fixpoint includes (t s : string) : bool :=
  startsWith t s ||
  match t with
  | EmptyString => false
  | String _ t' => includes t' s
  end.

(** [Number.isSafeInteger(n)]: the integers a JavaScript number holds
    exactly, those below 2^53 in absolute value. *)
Definition isSafeInteger (n : Z) : Prop := Z.abs n <= 2 ^ 53 - 1.

(** [n.toString()] for a safe integer [n]: its decimal numeral, with a
    leading minus sign for negative values.  (Numbers from 10^21 on print
    with an exponent; no identifier, page number or status code comes
    near.) *)
Definition toString (n : Z) : string :=
  NilZero.string_of_int (Z.to_int n).

(** [xs.join(sep)] *)
Fixpoint join (sep : string) (xs : list string) : string :=
  match xs with
  | [] => ""
  | [x] => x
  | x :: rest => x +:+ sep +:+ join sep rest
  end.

(** [s] occurs in [t]. *)
Definition occurs_in (s t : string) : Prop :=
  exists pre post, t = pre +:+ s +:+ post.

End JsString.

(** ** ASCII text

    On a string of ASCII characters [toLowerCase] moves 'A'..'Z' to
    'a'..'z', character by character, and leaves the rest. *)

Module AsciiText.

(** Every character is below 128. *)
Fixpoint is_ascii (s : string) : bool :=
  match s with
  | EmptyString => true
  | String c s' => (Ascii.nat_of_ascii c <? 128)%nat && is_ascii s'
  end.

Definition lower_char (c : Ascii.ascii) : Ascii.ascii :=
  let n := Ascii.nat_of_ascii c in
  if (65 <=? n)%nat && (n <=? 90)%nat then Ascii.ascii_of_nat (n + 32) else c.

Fixpoint lower (s : string) : string :=
  match s with
  | EmptyString => EmptyString
  | String c s' => String (lower_char c) (lower s')
  end.

(** Two strings of the same length whose characters agree up to the case
    of ASCII letters. *)
Fixpoint eq_nocase (a b : string) : Prop :=
  match a, b with
  | EmptyString, EmptyString => True
  | String x a', String y b' => lower_char x = lower_char y /\ eq_nocase a' b'
  | _, _ => False
  end.

(** Some substring of [t] equals [s] up to the case of ASCII letters. *)
Definition occurs_nocase_in (s t : string) : Prop :=
  exists pre mid post, t = pre +:+ mid +:+ post /\ eq_nocase mid s.

End AsciiText.

(** ** JavaScript arrays and numbers *)

Module JsArray.
Section Array.
Context {A : Type}.

(** Resolution of a relative index against a length, as [slice] does:
    a negative index counts from the end, and the result is clamped to
    [0 .. len]. *)
Definition relative_index (len k : Z) : Z :=
  if k <? 0 then Z.max (len + k) 0 else Z.min k len.

(** [l.slice(start, end)]; [end_ = None] is the one-argument call
    [l.slice(start)], which runs to the end of the array. *)
Definition slice (l : list A) (start : Z) (end_ : option Z) : list A :=
  let len := Z.of_nat (length l) in
  let k := relative_index len start in
  let final := match end_ with
               | None => len
               | Some e => relative_index len e
               end in
  firstn (Z.to_nat (final - k)) (skipn (Z.to_nat k) l).

(** [a] may stand before [b] in the order of the comparator [cmp]. *)
Definition before (cmp : A -> A -> Z) (a b : A) : Prop := cmp a b <= 0.

(** Insertion of [x] in front of the first element it does not follow. *)
Fixpoint insert (cmp : A -> A -> Z) (x : A) (l : list A) : list A :=
  match l with
  | [] => [x]
  | y :: l' => if cmp x y <=? 0 then x :: l else y :: insert cmp x l'
  end.

(** [[...l].sort(cmp)]: the engine's sort is stable and orders by the
    sign of the comparator; a stable insertion sort is its model. *)
Definition sort (cmp : A -> A -> Z) (l : list A) : list A :=
  fold_right (insert cmp) [] l.

End Array.

(** [xs.includes(x)] on an array of numbers. *)
Definition includes (xs : list Z) (x : Z) : bool :=
  existsb (fun y => y =? x) xs.

(** [JSON.stringify(xs)] for an array of integers. *)
Definition JSON_stringify (xs : list Z) : string :=
  "[" +:+ JsString.join "," (map JsString.toString xs) +:+ "]".

End JsArray.

(** [Math.ceil] *)
Definition Math_ceil (q : Q) : Z := Qceiling q.

(** [a % b]: the remainder has the sign of the dividend. *)
Definition js_rem (a b : Z) : Z := Z.rem a b.

(** ** Data model *)

Module User.
Record t := { id : Z; name : string }.
End User.

(** A post as the remote API returns it. *)
Module RawPost.
Record t := { id : Z; userId : Z; title : string; body : string }.
End RawPost.

(** The arguments of [new Date(year, monthIndex, day)]. *)
Module JsDate.
Record t := { year : Z; monthIndex : Z; day : Z }.
End JsDate.

(** A post after enrichment: [{...post, user, date, tags}]. *)
Module Post.
Record t := {
  id : Z;
  userId : Z;
  title : string;
  body : string;
  user : option User.t;
  date : JsDate.t;
  tags : list string
}.
End Post.

(** The error object axios rejects with. *)
Module AxiosError.
Record Response := { status : Z; statusText : string }.
Record Request := { url : string }.
Record t := { response : option Response; request : option Request }.
End AxiosError.

(** A settled promise. *)
Inductive Settled (A : Type) : Type :=
| Fulfilled (value : A)
| Rejected (reason : AxiosError.t).
Arguments Fulfilled {A} value.
Arguments Rejected {A} reason.

Definition isRejected {A : Type} (p : Settled A) : Prop :=
  match p with
  | Rejected _ => True
  | Fulfilled _ => False
  end.

(** [Promise.all([p, q])]: fulfilled with both values when both are
    fulfilled, otherwise rejected with the reason of the promise that
    rejects first; [q_first] says that [q] settles before [p]. *)
Definition Promise_all {A B : Type} (p : Settled A) (q : Settled B) (q_first : bool)
  : Settled (A * B) :=
  match p, q with
  | Fulfilled a, Fulfilled b => Fulfilled (a, b)
  | Rejected e, Fulfilled _ => Rejected e
  | Fulfilled _, Rejected e => Rejected e
  | Rejected e1, Rejected e2 => Rejected (if q_first then e2 else e1)
  end.

(** ** The component *)

Module PostList.

(** The aggregate held by [useState]. *)
Record State := {
  posts : list Post.t;
  loading : bool;
  error : string;
  searchQuery : string;
  currentPage : Z;
  postsPerPage : Z;
  sortBy : string;
  selectedPost : option Post.t;
  favorites : list Z;
  snackbarOpen : bool;
  snackbarMessage : string;
  darkMode : bool;
  anchorEl : option nat;
  deleteCandidate : option Post.t
}.

(** Partial merges [{...s, field: v}], one per field that is written. *)
Definition set_posts (v : list Post.t) (s : State) : State :=
  {| posts := v; loading := loading s; error := error s;
     searchQuery := searchQuery s; currentPage := currentPage s;
     postsPerPage := postsPerPage s; sortBy := sortBy s;
     selectedPost := selectedPost s; favorites := favorites s;
     snackbarOpen := snackbarOpen s; snackbarMessage := snackbarMessage s;
     darkMode := darkMode s; anchorEl := anchorEl s;
     deleteCandidate := deleteCandidate s |}.

Definition set_loading (v : bool) (s : State) : State :=
  {| posts := posts s; loading := v; error := error s;
     searchQuery := searchQuery s; currentPage := currentPage s;
     postsPerPage := postsPerPage s; sortBy := sortBy s;
     selectedPost := selectedPost s; favorites := favorites s;
     snackbarOpen := snackbarOpen s; snackbarMessage := snackbarMessage s;
     darkMode := darkMode s; anchorEl := anchorEl s;
     deleteCandidate := deleteCandidate s |}.

Definition set_error (v : string) (s : State) : State :=
  {| posts := posts s; loading := loading s; error := v;
     searchQuery := searchQuery s; currentPage := currentPage s;
     postsPerPage := postsPerPage s; sortBy := sortBy s;
     selectedPost := selectedPost s; favorites := favorites s;
     snackbarOpen := snackbarOpen s; snackbarMessage := snackbarMessage s;
     darkMode := darkMode s; anchorEl := anchorEl s;
     deleteCandidate := deleteCandidate s |}.

Definition set_searchQuery (v : string) (s : State) : State :=
  {| posts := posts s; loading := loading s; error := error s;
     searchQuery := v; currentPage := currentPage s;
     postsPerPage := postsPerPage s; sortBy := sortBy s;
     selectedPost := selectedPost s; favorites := favorites s;
     snackbarOpen := snackbarOpen s; snackbarMessage := snackbarMessage s;
     darkMode := darkMode s; anchorEl := anchorEl s;
     deleteCandidate := deleteCandidate s |}.

Definition set_currentPage (v : Z) (s : State) : State :=
  {| posts := posts s; loading := loading s; error := error s;
     searchQuery := searchQuery s; currentPage := v;
     postsPerPage := postsPerPage s; sortBy := sortBy s;
     selectedPost := selectedPost s; favorites := favorites s;
     snackbarOpen := snackbarOpen s; snackbarMessage := snackbarMessage s;
     darkMode := darkMode s; anchorEl := anchorEl s;
     deleteCandidate := deleteCandidate s |}.

Definition set_sortBy (v : string) (s : State) : State :=
  {| posts := posts s; loading := loading s; error := error s;
     searchQuery := searchQuery s; currentPage := currentPage s;
     postsPerPage := postsPerPage s; sortBy := v;
     selectedPost := selectedPost s; favorites := favorites s;
     snackbarOpen := snackbarOpen s; snackbarMessage := snackbarMessage s;
     darkMode := darkMode s; anchorEl := anchorEl s;
     deleteCandidate := deleteCandidate s |}.

Definition set_favorites (v : list Z) (s : State) : State :=
  {| posts := posts s; loading := loading s; error := error s;
     searchQuery := searchQuery s; currentPage := currentPage s;
     postsPerPage := postsPerPage s; sortBy := sortBy s;
     selectedPost := selectedPost s; favorites := v;
     snackbarOpen := snackbarOpen s; snackbarMessage := snackbarMessage s;
     darkMode := darkMode s; anchorEl := anchorEl s;
     deleteCandidate := deleteCandidate s |}.

Definition set_snackbar (open : bool) (message : string) (s : State) : State :=
  {| posts := posts s; loading := loading s; error := error s;
     searchQuery := searchQuery s; currentPage := currentPage s;
     postsPerPage := postsPerPage s; sortBy := sortBy s;
     selectedPost := selectedPost s; favorites := favorites s;
     snackbarOpen := open; snackbarMessage := message;
     darkMode := darkMode s; anchorEl := anchorEl s;
     deleteCandidate := deleteCandidate s |}.

Definition set_darkMode (v : bool) (s : State) : State :=
  {| posts := posts s; loading := loading s; error := error s;
     searchQuery := searchQuery s; currentPage := currentPage s;
     postsPerPage := postsPerPage s; sortBy := sortBy s;
     selectedPost := selectedPost s; favorites := favorites s;
     snackbarOpen := snackbarOpen s; snackbarMessage := snackbarMessage s;
     darkMode := v; anchorEl := anchorEl s;
     deleteCandidate := deleteCandidate s |}.

Definition set_anchorEl (v : option nat) (s : State) : State :=
  {| posts := posts s; loading := loading s; error := error s;
     searchQuery := searchQuery s; currentPage := currentPage s;
     postsPerPage := postsPerPage s; sortBy := sortBy s;
     selectedPost := selectedPost s; favorites := favorites s;
     snackbarOpen := snackbarOpen s; snackbarMessage := snackbarMessage s;
     darkMode := darkMode s; anchorEl := v;
     deleteCandidate := deleteCandidate s |}.

Definition set_deleteCandidate (v : option Post.t) (s : State) : State :=
  {| posts := posts s; loading := loading s; error := error s;
     searchQuery := searchQuery s; currentPage := currentPage s;
     postsPerPage := postsPerPage s; sortBy := sortBy s;
     selectedPost := selectedPost s; favorites := favorites s;
     snackbarOpen := snackbarOpen s; snackbarMessage := snackbarMessage s;
     darkMode := darkMode s; anchorEl := anchorEl s;
     deleteCandidate := v |}.

(** The argument of [useState]; [stored] is the outcome of
    [JSON.parse(localStorage.getItem('favorites'))], [None] when the key
    is absent. *)
Definition initialState (stored : option (list Z)) : State :=
  {| posts := []; loading := true; error := ""; searchQuery := "";
     currentPage := 1; postsPerPage := 12; sortBy := "newest";
     selectedPost := None;
     favorites := match stored with Some l => l | None => [] end;
     snackbarOpen := false; snackbarMessage := ""; darkMode := false;
     anchorEl := None; deleteCandidate := None |}.

(** *** Derived list pipeline (the [useMemo] block) *)

Section Pipeline.

(** [s.toLowerCase()], the lower-casing of the engine: Unicode, and
    sensitive to context (a capital sigma at the end of a word becomes
    the final sigma). *)
Variable toLowerCase : string -> string.

(** The callback of [state.posts.filter(...)]. *)
Definition matchesSearch (debouncedSearch : string) (post : Post.t) : bool :=
  JsString.includes (toLowerCase (Post.title post)) (toLowerCase debouncedSearch)
  || JsString.includes (toLowerCase (Post.body post)) (toLowerCase debouncedSearch)
  || String.eqb (JsString.toString (Post.userId post)) debouncedSearch.

Definition filterPosts (posts : list Post.t) (debouncedSearch : string) : list Post.t :=
  List.filter (matchesSearch debouncedSearch) posts.

(** [a.localeCompare(b)], the collation of the host: negative, zero or
    positive. *)
Variable localeCompare : string -> string -> Z.

(** The comparator handed to [sort]. *)
Definition comparePosts (sortBy : string) (a b : Post.t) : Z :=
  if String.eqb sortBy "newest" then Post.id b - Post.id a
  else if String.eqb sortBy "oldest" then Post.id a - Post.id b
  else localeCompare (Post.title a) (Post.title b).

Definition sortPosts (sortBy : string) (filtered : list Post.t) : list Post.t :=
  JsArray.sort (comparePosts sortBy) filtered.

Record Derived := {
  filteredPosts : list Post.t;
  pageCount : Z;
  currentPosts : list Post.t
}.

Definition derive (s : State) (debouncedSearch : string) : Derived :=
  let filtered := filterPosts (posts s) debouncedSearch in
  let sorted := sortPosts (sortBy s) filtered in
  let indexOfLastPost := currentPage s * postsPerPage s in
  let indexOfFirstPost := indexOfLastPost - postsPerPage s in
  {| filteredPosts := sorted;
     pageCount :=
       Math_ceil (inject_Z (Z.of_nat (length sorted)) / inject_Z (postsPerPage s));
     currentPosts :=
       JsArray.slice sorted indexOfFirstPost (Some indexOfLastPost) |}.

End Pipeline.

(** *** Data fetching *)

(** The vocabulary sliced for the tags of a post. *)
Definition tagVocabulary : list string := ["tech"; "business"; "health"].

(** The callback of [postsRes.data.map(...)]. *)
Definition enrichPost (users : list User.t) (post : RawPost.t) : Post.t :=
  {| Post.id := RawPost.id post;
     Post.userId := RawPost.userId post;
     Post.title := RawPost.title post;
     Post.body := RawPost.body post;
     Post.user := List.find (fun user => User.id user =? RawPost.userId post) users;
     Post.date := {| JsDate.year := 2023;
                     JsDate.monthIndex := js_rem (RawPost.id post) 12;
                     JsDate.day := js_rem (RawPost.id post) 28 |};
     Post.tags := JsArray.slice tagVocabulary (js_rem (RawPost.id post) 3) None |}.

Definition enrich (posts : list RawPost.t) (users : list User.t) : list Post.t :=
  map (enrichPost users) posts.

(** The message [handleError] computes. *)
Definition errorMessage (err : AxiosError.t) : string :=
  match AxiosError.response err with
  | Some r =>
      "Error: " +:+ JsString.toString (AxiosError.status r) +:+ " "
                +:+ AxiosError.statusText r
  | None =>
      match AxiosError.request err with
      | Some _ => "Server is not responding"
      | None => "Failed to fetch posts."
      end
  end.

Definition handleError (err : AxiosError.t) (s : State) : State :=
  set_error (errorMessage err) s.

(** [fetchData], run once on mount: the two requests settle as [postsGet]
    and [usersGet]; [users_first] orders them. *)
Definition fetchData (postsGet : Settled (list RawPost.t))
    (usersGet : Settled (list User.t)) (users_first : bool) (s : State) : State :=
  match Promise_all postsGet usersGet users_first with
  | Fulfilled (postsRes, usersRes) =>
      set_loading false (set_posts (enrich postsRes usersRes) s)
  | Rejected err =>
      set_loading false (handleError err s)
  end.

(** *** Handlers *)

(** Search box [onChange]. *)
Definition onSearchChange (value : string) (s : State) : State :=
  set_currentPage 1 (set_searchQuery value s).

(** Sort icon, menu close and menu item [onClick]. *)
Definition onSortOpen (target : nat) (s : State) : State :=
  set_anchorEl (Some target) s.

Definition onSortClose (s : State) : State :=
  set_anchorEl None s.

Definition onSortPick (option : string) (s : State) : State :=
  set_anchorEl None (set_sortBy option s).

Definition onDarkModeChange (checked : bool) (s : State) : State :=
  set_darkMode checked s.

(** Pager [onChange]. *)
Definition onPageChange (page : Z) (s : State) : State :=
  set_currentPage page s.

(** [toggleFavorite(postId)] on the rendered state [s] and the browser's
    [localStorage]. *)
Definition toggleFavorite (postId : Z) (s : State) (localStorage : gmap string string)
  : State * gmap string string :=
  let newFavorites :=
    if JsArray.includes (favorites s) postId
    then List.filter (fun id => negb (id =? postId)) (favorites s)
    else favorites s ++ [postId] in
  (set_snackbar true
     (if JsArray.includes (favorites s) postId
      then "Removed from favorites" else "Added to favorites")
     (set_favorites newFavorites s),
   <["favorites" := JsArray.JSON_stringify newFavorites]> localStorage).

(** [handleDelete(postId)]; [postId = None] is [undefined], which
    [post.id !== postId] separates from every identifier. *)
Definition handleDelete (postId : option Z) (s : State) : State :=
  set_deleteCandidate None
    (set_snackbar true "Post deleted successfully"
       (set_posts
          (List.filter
             (fun post => match postId with
                          | Some x => negb (Post.id post =? x)
                          | None => true
                          end)
             (posts s))
          s)).

(** Delete icon, then the two buttons of the confirmation dialog. *)
Definition onDeleteClick (post : Post.t) (s : State) : State :=
  set_deleteCandidate (Some post) s.

Definition onDeleteCancel (s : State) : State :=
  set_deleteCandidate None s.

Definition onDeleteConfirm (s : State) : State :=
  handleDelete (option_map Post.id (deleteCandidate s)) s.

Definition onShare (s : State) : State :=
  set_snackbar true "Link copied to clipboard" s.

Definition onSnackbarClose (s : State) : State :=
  set_snackbar false (snackbarMessage s) s.

End PostList.

(** ** Concrete data on which the component is run *)

Module Sample.
Import PostList.

(** The sample posts are ASCII text, which the engine lower-cases
    character by character. *)
Definition toLowerCase : string -> string := AsciiText.lower.

(** A collation that orders titles by their first code unit. *)
Definition firstLetterCompare (a b : string) : Z :=
  let key (s : string) : Z :=
    match s with
    | EmptyString => 0
    | String c _ => 1 + Z.of_nat (Ascii.nat_of_ascii c)
    end in
  key a - key b.

Definition rawPost (i userId : Z) (title body : string) : RawPost.t :=
  {| RawPost.id := i; RawPost.userId := userId;
     RawPost.title := title; RawPost.body := body |}.

Definition leanne : User.t := {| User.id := 1; User.name := "Leanne Graham" |}.

Definition post (i userId : Z) (title body : string) : Post.t :=
  enrichPost [leanne] (rawPost i userId title body).

(** [n] posts of user 1, numbered from [first] on. *)
Definition numbered (first n : nat) : list Post.t :=
  map (fun i => post (Z.of_nat i) 1 "qui est esse" "et iusto sed quo iure")
      (seq first n).

(** The state once posts 1 to [n] are loaded, showing page [page]. *)
Definition loaded (n : nat) (page : Z) : State :=
  set_currentPage page
    (set_loading false (set_posts (numbered 1 n) (initialState None))).

Definition serverError : AxiosError.t :=
  {| AxiosError.response :=
       Some {| AxiosError.status := 500;
               AxiosError.statusText := "Internal Server Error" |};
     AxiosError.request :=
       Some {| AxiosError.url := "https://jsonplaceholder.typicode.com/posts" |} |}.

Definition timeout : AxiosError.t :=
  {| AxiosError.response := None;
     AxiosError.request :=
       Some {| AxiosError.url := "https://jsonplaceholder.typicode.com/users" |} |}.

End Sample.

(** ** Reading the favourites back on mount *)

Module JsJSON.

(** The character written as the one-character string [s]. *)
Definition char_of (s : string) : Ascii.ascii :=
  match s with
  | String c _ => c
  | EmptyString => Ascii.zero
  end.

(** The characters of a decimal numeral: the minus sign and the digits. *)
Definition is_numeral_char (c : Ascii.ascii) : bool :=
  let n := Ascii.nat_of_ascii c in
  (n =? 45)%nat || ((48 <=? n)%nat && (n <=? 57)%nat).

Fixpoint all_chars (f : Ascii.ascii -> bool) (s : string) : bool :=
  match s with
  | EmptyString => true
  | String c s' => f c && all_chars f s'
  end.

(** The fields of [s] between occurrences of the character [sep]. *)
Fixpoint fields (sep : Ascii.ascii) (s : string) : list string :=
  match s with
  | EmptyString => [""]
  | String c s' =>
      if Ascii.eqb c sep then "" :: fields sep s'
      else match fields sep s' with
           | t :: ts => String c t :: ts
           | [] => [String c ""]
           end
  end.

(** [s] without its last character, which has to be the closing bracket. *)
Fixpoint strip_closing (s : string) : option string :=
  match s with
  | EmptyString => None
  | String c s' =>
      match s' with
      | EmptyString => if Ascii.eqb c (char_of "]") then Some "" else None
      | String _ _ => option_map (String c) (strip_closing s')
      end
  end.

(** An integer literal in the form [toString] prints (no leading zeros,
    no "-0"). *)
Definition parse_int (token : string) : option Z :=
  match NilZero.int_of_string token with
  | Some d =>
      let n := Z.of_int d in
      if String.eqb (JsString.toString n) token then Some n else None
  | None => None
  end.

Fixpoint parse_ints (tokens : list string) : option (list Z) :=
  match tokens with
  | [] => Some []
  | t :: ts =>
      match parse_int t, parse_ints ts with
      | Some n, Some ns => Some (n :: ns)
      | _, _ => None
      end
  end.

(** [JSON.parse(text)] on the texts [JSON.stringify] writes for arrays of
    integers: [Some xs] when [text] is the compact text of the array
    [xs]; [None] stands for every other text (another JSON value, other
    spacing, or a syntax error), which this model does not follow. *)
Definition JSON_parse (text : string) : option (list Z) :=
  match text with
  | EmptyString => None
  | String c rest =>
      if Ascii.eqb c (char_of "[") then
        match strip_closing rest with
        | Some EmptyString => Some []
        | Some inner => parse_ints (fields (char_of ",") inner)
        | None => None
        end
      else None
  end.

End JsJSON.

Module Mount.
Import PostList.

(** The state a fresh mount starts from, given the browser's
    [localStorage].  An absent key reads as [null], which [|| []]
    replaces by the empty array; [None] is a stored text outside the
    model of [JSON_parse]. *)
Definition mount (localStorage : gmap string string) : option State :=
  match localStorage !! "favorites" with
  | None => Some (initialState None)
  | Some text =>
      match JsJSON.JSON_parse text with
      | Some xs => Some (initialState (Some xs))
      | None => None
      end
  end.

End Mount.

(** ** What the component renders *)

Module View.
Import PostList.

(** One card of the grid: the post, whether the "New" badge shows
    ([invisible={post.id > 10}]), whether the heart is filled, and the
    author line ([post.user?.name]). *)
Record Card := {
  cardPost : Post.t;
  badgeNew : bool;
  heartFilled : bool;
  author : option string
}.

Inductive Grid :=
| Skeletons (n : nat)
| NoMatch
| Cards (cards : list Card).

(** The parts of the screen that depend on the state: the error alert,
    the grid, the pager with its [count] and [page], the title named by
    the delete dialog, whether the sort menu is open, and the snackbar. *)
Record Screen := {
  alert : option string;
  grid : Grid;
  pager : option (Z * Z);
  deleteDialog : option string;
  sortMenuOpen : bool;
  snackbar : option string
}.

Definition card (s : State) (post : Post.t) : Card :=
  {| cardPost := post;
     badgeNew := negb (10 <? Post.id post);
     heartFilled := JsArray.includes (favorites s) (Post.id post);
     author := option_map User.name (Post.user post) |}.

Section Render.

Variable toLowerCase : string -> string.
Variable localeCompare : string -> string -> Z.

Definition render (s : State) (debouncedSearch : string) : Screen :=
  let d := derive toLowerCase localeCompare s debouncedSearch in
  {| alert := if String.eqb (error s) "" then None else Some (error s);
     grid :=
       if loading s then Skeletons 8
       else if (length (filteredPosts d) =? 0)%nat then NoMatch
       else Cards (map (card s) (currentPosts d));
     pager :=
       if negb (loading s) && (0 <? length (filteredPosts d))%nat
       then Some (pageCount d, currentPage s) else None;
     deleteDialog := option_map Post.title (deleteCandidate s);
     sortMenuOpen := match anchorEl s with Some _ => true | None => false end;
     snackbar := if snackbarOpen s then Some (snackbarMessage s) else None |}.

End Render.

End View.

(** * Properties *)

Import PostList.

(** ** Sanity checks of the embedding on concrete values *)

Example lower_ex : AsciiText.lower "Qui Est ESSE" = "qui est esse".
Proof. reflexivity. Qed.

Example toString_ex :
  map JsString.toString [0; 7; 10; 404; -3] = ["0"; "7"; "10"; "404"; "-3"].
Proof. reflexivity. Qed.

Example includes_ex :
  JsString.includes "qui est esse" "est" = true /\
  JsString.includes "qui" "quid" = false.
Proof. split; reflexivity. Qed.

Example slice_ex :
  JsArray.slice [1; 2; 3; 4; 5] 1 (Some 3) = [2; 3] /\
  JsArray.slice [1; 2; 3; 4; 5] 2 None = [3; 4; 5] /\
  JsArray.slice [1; 2; 3; 4; 5] (-2) None = [4; 5] /\
  JsArray.slice [1; 2; 3; 4; 5] 12 (Some 24) = [].
Proof. repeat split; reflexivity. Qed.

Example sort_ex :
  JsArray.sort (fun a b => b - a) [2; 9; 4; 9; 1] = [9; 9; 4; 2; 1].
Proof. reflexivity. Qed.

Example stringify_ex : JsArray.JSON_stringify [3; 14; 15] = "[3,14,15]".
Proof. reflexivity. Qed.

Example ceil_ex :
  Math_ceil (inject_Z 13 / inject_Z 12) = 2 /\
  Math_ceil (inject_Z 24 / inject_Z 12) = 2 /\
  Math_ceil (inject_Z 0 / inject_Z 12) = 0.
Proof. repeat split; reflexivity. Qed.

(** ** Strings *)

Section StringFacts.

Import JsString AsciiText.

Lemma append_nil (t : string) : "" +:+ t = t.
Proof. reflexivity. Qed.

Lemma append_cons (c : Ascii.ascii) (s t : string) :
  String c s +:+ t = String c (s +:+ t).
Proof. reflexivity. Qed.

Ltac unfold_append := rewrite ?append_nil, ?append_cons in *.

Lemma append_empty_r (s : string) : s +:+ "" = s.
Proof. induction s as [|c s IH]; unfold_append; [reflexivity | now rewrite IH]. Qed.

Lemma append_assoc (a b c : string) : (a +:+ b) +:+ c = a +:+ b +:+ c.
Proof. induction a as [|x a IH]; unfold_append; [reflexivity | now rewrite IH]. Qed.

Lemma startsWith_spec (t s : string) :
  startsWith t s = true <-> exists post, t = s +:+ post.
Proof.
  revert t. induction s as [|a s IH]; intros t.
  - split; [intros _; now exists t | intros _; now destruct t].
  - destruct t as [|b t]; simpl.
    + split; [discriminate | intros [post H]; discriminate].
    + rewrite andb_true_iff, Ascii.eqb_eq, IH. split.
      * intros [-> [post ->]]. now exists post.
      * intros [post H]. unfold_append. injection H as -> ->.
        split; [reflexivity | now exists post].
Qed.

Lemma includes_spec (t s : string) :
  includes t s = true <-> occurs_in s t.
Proof.
  unfold occurs_in. induction t as [|b t IH].
  - cbn [includes]. rewrite orb_false_r, startsWith_spec. split.
    + intros [post H]. now exists "", post.
    + intros [pre [post H]]. destruct pre; [now exists post | discriminate].
  - cbn [includes]. rewrite orb_true_iff, startsWith_spec, IH. split.
    + intros [[post H] | [pre [post H]]].
      * now exists "", post.
      * exists (String b pre), post. unfold_append. now rewrite H.
    + intros [pre [post H]]. destruct pre as [|c pre].
      * left. now exists post.
      * right. unfold_append. injection H as _ H. now exists pre, post.
Qed.

Lemma includes_empty (t : string) : includes t "" = true.
Proof. destruct t; reflexivity. Qed.

Lemma includes_middle (a b c : string) : includes (a +:+ b +:+ c) b = true.
Proof. apply includes_spec. now exists a, c. Qed.

Lemma lower_append (a b : string) :
  lower (a +:+ b) = lower a +:+ lower b.
Proof.
  induction a as [|x a IH]; unfold_append; simpl; unfold_append;
    [reflexivity | now rewrite IH].
Qed.

Lemma lower_split (t a b : string) :
  lower t = a +:+ b ->
  exists a' b', t = a' +:+ b' /\ lower a' = a /\ lower b' = b.
Proof.
  revert t. induction a as [|x a IH]; intros t H; unfold_append.
  - now exists "", t.
  - destruct t as [|y t]; simpl in H; [discriminate |].
    injection H as Hx Ht. destruct (IH t Ht) as [a' [b' [-> [Ha Hb]]]].
    exists (String y a'), b'. unfold_append. simpl. now rewrite Hx, Ha.
Qed.

Lemma eq_nocase_spec (a b : string) :
  eq_nocase a b <-> lower a = lower b.
Proof.
  revert b. induction a as [|x a IH]; intros [|y b]; simpl;
    try (split; [contradiction | discriminate]).
  - split; [reflexivity | exact (fun _ => I)].
  - rewrite IH. split.
    + now intros [-> ->].
    + intros H. injection H as H1 H2. now split.
Qed.

(** Lower-casing both sides and searching is a search up to case. *)
Lemma includes_nocase_spec (t s : string) :
  includes (lower t) (lower s) = true <-> occurs_nocase_in s t.
Proof.
  rewrite includes_spec. unfold occurs_in, occurs_nocase_in. split.
  - intros [pre [post H]].
    destruct (lower_split _ _ _ H) as [pre' [rest [-> [Hpre Hrest]]]].
    destruct (lower_split _ _ _ Hrest) as [mid [post' [-> [Hmid Hpost]]]].
    exists pre', mid, post'. split; [reflexivity | now apply eq_nocase_spec].
  - intros [pre [mid [post [-> H]]]]. apply eq_nocase_spec in H.
    exists (lower pre), (lower post).
    now rewrite !lower_append, H.
Qed.

End StringFacts.

(** ** Arrays *)

Section SortFacts.

Context {A : Type}.
Variable cmp : A -> A -> Z.

Lemma insert_perm (x : A) (l : list A) :
  Permutation (JsArray.insert cmp x l) (x :: l).
Proof.
  induction l as [|y l IH]; simpl; [reflexivity |].
  destruct (cmp x y <=? 0); [reflexivity |].
  rewrite IH. apply perm_swap.
Qed.

Lemma sort_perm (l : list A) : Permutation (JsArray.sort cmp l) l.
Proof.
  induction l as [|x l IH]; simpl; [reflexivity |].
  unfold JsArray.sort in IH. rewrite insert_perm. now apply perm_skip.
Qed.

Lemma sort_length (l : list A) : length (JsArray.sort cmp l) = length l.
Proof. apply Permutation_length, sort_perm. Qed.

Lemma StronglySorted_weaken (R R' : A -> A -> Prop) (l : list A) :
  (forall a b, R a b -> R' a b) -> StronglySorted R l -> StronglySorted R' l.
Proof.
  intros HR. induction 1 as [|a l Hl IH Ha]; constructor; [exact IH |].
  eapply List.Forall_impl; [| exact Ha]. intros b. apply HR.
Qed.

Hypothesis cmp_total : forall a b, 0 < cmp a b -> cmp b a <= 0.

Lemma insert_HdRel (y x : A) (l : list A) :
  JsArray.before cmp y x -> HdRel (JsArray.before cmp) y l -> HdRel (JsArray.before cmp) y (JsArray.insert cmp x l).
Proof.
  intros Hyx Hl. destruct l as [|z l]; simpl.
  - now constructor.
  - destruct (cmp x z <=? 0); constructor; [assumption |].
    now inversion Hl.
Qed.

Lemma insert_sorted (x : A) (l : list A) :
  Sorted (JsArray.before cmp) l -> Sorted (JsArray.before cmp) (JsArray.insert cmp x l).
Proof.
  induction 1 as [|y l Hl IH Hy]; simpl.
  - repeat constructor.
  - destruct (cmp x y <=? 0) eqn:E.
    + apply Z.leb_le in E. repeat constructor; assumption.
    + apply Z.leb_gt in E. constructor; [exact IH |].
      apply insert_HdRel; [now apply cmp_total | exact Hy].
Qed.

Lemma sort_sorted (l : list A) : Sorted (JsArray.before cmp) (JsArray.sort cmp l).
Proof.
  induction l as [|x l IH]; simpl; [constructor |].
  now apply insert_sorted.
Qed.

Hypothesis cmp_trans : forall a b c, cmp a b <= 0 -> cmp b c <= 0 -> cmp a c <= 0.

Lemma sort_strongly_sorted (l : list A) :
  StronglySorted (JsArray.before cmp) (JsArray.sort cmp l).
Proof.
  apply Sorted_StronglySorted; [| apply sort_sorted].
  intros a b c. apply cmp_trans.
Qed.

End SortFacts.

Section SliceFacts.

Context {A : Type}.

(** A window that starts inside the array. *)
Lemma slice_window (l : list A) (i j : Z) :
  0 <= i <= j ->
  JsArray.slice l i (Some j) = firstn (Z.to_nat (j - i)) (skipn (Z.to_nat i) l).
Proof.
  intros H. unfold JsArray.slice, JsArray.relative_index.
  set (len := Z.of_nat (length l)).
  assert (Hlen : length l = Z.to_nat len) by (unfold len; lia).
  destruct (Z.ltb_spec i 0); [lia |]. destruct (Z.ltb_spec j 0); [lia |].
  destruct (Z.le_gt_cases len i) as [Hi | Hi].
  - rewrite !Z.min_r by lia.
    rewrite !skipn_all2 by lia.
    now rewrite !firstn_nil.
  - rewrite (Z.min_l i len) by lia.
    destruct (Z.le_gt_cases j len) as [Hj | Hj].
    + now rewrite Z.min_l by lia.
    + rewrite Z.min_r by lia.
      rewrite !firstn_all2; [reflexivity | |]; rewrite length_skipn; lia.
Qed.

Lemma slice_window_length (l : list A) (i j : Z) :
  0 <= i <= j ->
  Z.of_nat (length (JsArray.slice l i (Some j)))
  = Z.max 0 (Z.min (j - i) (Z.of_nat (length l) - i)).
Proof.
  intros H. rewrite slice_window by exact H.
  rewrite length_firstn, length_skipn. lia.
Qed.

(** Dropping a prefix: the one-argument call with an index inside the
    array. *)
Lemma slice_from (l : list A) (i : Z) :
  0 <= i <= Z.of_nat (length l) ->
  JsArray.slice l i None = skipn (Z.to_nat i) l.
Proof.
  intros H. unfold JsArray.slice, JsArray.relative_index.
  destruct (Z.ltb_spec i 0); [lia |].
  rewrite Z.min_l by lia.
  apply firstn_all2. rewrite length_skipn. lia.
Qed.

End SliceFacts.

Lemma Math_ceil_div (n d : Z) :
  Math_ceil (inject_Z n / inject_Z d) = - (- n / d).
Proof.
  unfold Math_ceil, Qceiling. f_equal.
  rewrite Zdiv_Qdiv. apply Qfloor_comp.
  rewrite inject_Z_opp. unfold Qdiv. ring.
Qed.

(** [Math.ceil(n / d)] is the least integer [k] with [n <= k * d]. *)
Lemma Math_ceil_div_spec (n d : Z) :
  0 < d ->
  d * (Math_ceil (inject_Z n / inject_Z d) - 1) < n
  <= d * Math_ceil (inject_Z n / inject_Z d).
Proof.
  intros Hd. rewrite Math_ceil_div.
  pose proof (Z.div_mod (- n) d ltac:(lia)) as Hdm.
  pose proof (Z.mod_pos_bound (- n) d Hd) as Hb.
  nia.
Qed.

(** ** The filter step *)

Section FilterStep.

Variable toLowerCase : string -> string.

Lemma matchesSearch_spec (s : string) (p : Post.t) :
  matchesSearch toLowerCase s p = true <->
  JsString.occurs_in (toLowerCase s) (toLowerCase (Post.title p)) \/
  JsString.occurs_in (toLowerCase s) (toLowerCase (Post.body p)) \/
  JsString.toString (Post.userId p) = s.
Proof.
  unfold matchesSearch.
  rewrite !orb_true_iff, !includes_spec, String.eqb_eq. tauto.
Qed.

(** C1, as the code has it.  For a post whose owning-user identifier is a
    safe integer, the filter step keeps the post exactly when its
    lower-cased title contains the lower-cased search string, or its
    lower-cased body does, or the identifier prints, in decimal, as the
    search string itself.  When title, body and search string are ASCII
    text, which the engine lower-cases letter by letter, this is
    containment of the search string up to the case of letters. *)
Theorem C1_filter_keeps_the_lowercase_matches
    (P : list Post.t) (s : string) (p : Post.t) :
  JsString.isSafeInteger (Post.userId p) ->
  (In p (filterPosts toLowerCase P s) <->
   In p P /\
   (JsString.occurs_in (toLowerCase s) (toLowerCase (Post.title p)) \/
    JsString.occurs_in (toLowerCase s) (toLowerCase (Post.body p)) \/
    JsString.toString (Post.userId p) = s)) /\
  ((forall x, AsciiText.is_ascii x = true -> toLowerCase x = AsciiText.lower x) ->
   AsciiText.is_ascii s = true ->
   AsciiText.is_ascii (Post.title p) = true ->
   AsciiText.is_ascii (Post.body p) = true ->
   (In p (filterPosts toLowerCase P s) <->
    In p P /\
    (AsciiText.occurs_nocase_in s (Post.title p) \/
     AsciiText.occurs_nocase_in s (Post.body p) \/
     JsString.toString (Post.userId p) = s))).
Proof.
  intros _. unfold filterPosts. rewrite filter_In, matchesSearch_spec.
  split; [reflexivity |].
  intros Hascii Hs Ht Hb.
  rewrite (Hascii s Hs), (Hascii _ Ht), (Hascii _ Hb).
  now rewrite <- !includes_spec, !includes_nocase_spec.
Qed.

(** C10.  With the empty search string the filter keeps every post: the
    lower-casing of the empty string is the empty string, which every
    title contains. *)
Theorem C10_empty_search_keeps_everything (P : list Post.t) :
  toLowerCase "" = "" ->
  filterPosts toLowerCase P "" = P.
Proof.
  intros Hempty. unfold filterPosts. induction P as [|p P IH]; [reflexivity |].
  cbn [List.filter]. unfold matchesSearch at 1.
  rewrite Hempty, includes_empty. cbn [orb]. now rewrite IH.
Qed.

End FilterStep.

Lemma C1_filter_keeps_the_lowercase_matches_witness :
  let p := Sample.post 2 1 "qui est esse" "est rerum tempore vitae" in
  In p (filterPosts Sample.toLowerCase [p] "EST") <->
  In p [p] /\
  (AsciiText.occurs_nocase_in "EST" (Post.title p) \/
   AsciiText.occurs_nocase_in "EST" (Post.body p) \/
   JsString.toString (Post.userId p) = "EST").
Proof.
  intros p.
  apply (proj2 (C1_filter_keeps_the_lowercase_matches Sample.toLowerCase [p] "EST" p
                  ltac:(unfold JsString.isSafeInteger; cbn; lia))).
  - intros x _. reflexivity.
  - reflexivity.
  - reflexivity.
  - reflexivity.
Defined.

(** C1, as stated, fails on a title that ends in a capital sigma.  The
    engine lower-cases the title "AΣ" to "aς", with the final sigma, and
    the search string "Σ" to "σ"; the title contains the search string
    as it stands, and the filter drops the post.  (The second part shows
    a function with these three values.) *)
Lemma C1_counterexample :
  (forall toLowerCase : string -> string,
     toLowerCase "AΣ" = "aς" -> toLowerCase "Σ" = "σ" -> toLowerCase "b" = "b" ->
     let p := Sample.post 1 1 "AΣ" "b" in
     JsString.occurs_in "Σ" (Post.title p) /\
     ~ In p (filterPosts toLowerCase [p] "Σ")) /\
  (exists toLowerCase : string -> string,
     toLowerCase "AΣ" = "aς" /\ toLowerCase "Σ" = "σ" /\ toLowerCase "b" = "b").
Proof.
  split.
  - intros toLowerCase Htitle Hquery Hbody p. split.
    + exists "A", "". reflexivity.
    + unfold filterPosts. rewrite filter_In. intros [_ H].
      unfold matchesSearch in H. cbn [Post.title Post.body Post.userId p Sample.post
        enrichPost Sample.rawPost RawPost.title RawPost.body RawPost.userId] in H.
      rewrite Htitle, Hquery, Hbody in H. discriminate H.
  - exists (fun x => if String.eqb x "AΣ" then "aς"
                     else if String.eqb x "Σ" then "σ" else x).
    repeat split.
Qed.

Lemma C10_empty_search_keeps_everything_witness :
  filterPosts Sample.toLowerCase (Sample.numbered 1 3) "" = Sample.numbered 1 3.
Proof.
  apply (C10_empty_search_keeps_everything Sample.toLowerCase (Sample.numbered 1 3)).
  reflexivity.
Defined.

(** ** The sort step *)

Section SortStep.

Variable toLowerCase : string -> string.
Variable localeCompare : string -> string -> Z.

Lemma sortPosts_perm (sortBy : string) (filtered : list Post.t) :
  Permutation (sortPosts localeCompare sortBy filtered) filtered.
Proof. apply sort_perm. Qed.

Lemma sortPosts_length (sortBy : string) (filtered : list Post.t) :
  length (sortPosts localeCompare sortBy filtered) = length filtered.
Proof. apply sort_length. Qed.

Lemma sortPosts_newest (filtered : list Post.t) :
  StronglySorted (fun a b => Post.id b <= Post.id a)
    (sortPosts localeCompare "newest" filtered).
Proof.
  eapply StronglySorted_weaken;
    [| apply (sort_strongly_sorted (comparePosts localeCompare "newest"))].
  - intros a b. unfold JsArray.before, comparePosts. cbn. lia.
  - intros a b. unfold comparePosts. cbn. lia.
  - intros a b c. unfold comparePosts. cbn. lia.
Qed.

Lemma sortPosts_oldest (filtered : list Post.t) :
  StronglySorted (fun a b => Post.id a <= Post.id b)
    (sortPosts localeCompare "oldest" filtered).
Proof.
  eapply StronglySorted_weaken;
    [| apply (sort_strongly_sorted (comparePosts localeCompare "oldest"))].
  - intros a b. unfold JsArray.before, comparePosts. cbn. lia.
  - intros a b. unfold comparePosts. cbn. lia.
  - intros a b c. unfold comparePosts. cbn. lia.
Qed.

(** C4.  The sort step rearranges the filtered list so that mode "newest"
    is non-increasing by identifier and mode "oldest" is non-decreasing
    by identifier; mode "alphabetical" is non-decreasing by title in the
    order of the host's collation, that collation being a total and
    transitive comparison. *)
Theorem C4_sort_orders_by_mode (filtered : list Post.t) :
  (StronglySorted (fun a b => Post.id b <= Post.id a)
     (sortPosts localeCompare "newest" filtered) /\
   Permutation (sortPosts localeCompare "newest" filtered) filtered) /\
  (StronglySorted (fun a b => Post.id a <= Post.id b)
     (sortPosts localeCompare "oldest" filtered) /\
   Permutation (sortPosts localeCompare "oldest" filtered) filtered) /\
  ((forall a b, 0 < localeCompare a b -> localeCompare b a <= 0) ->
   (forall a b c, localeCompare a b <= 0 -> localeCompare b c <= 0 ->
                  localeCompare a c <= 0) ->
   StronglySorted (fun a b => localeCompare (Post.title a) (Post.title b) <= 0)
     (sortPosts localeCompare "alphabetical" filtered) /\
   Permutation (sortPosts localeCompare "alphabetical" filtered) filtered).
Proof.
  split; [| split].
  - split; [apply sortPosts_newest | apply sortPosts_perm].
  - split; [apply sortPosts_oldest | apply sortPosts_perm].
  - intros Htotal Htrans. split; [| apply sortPosts_perm].
    apply (sort_strongly_sorted (comparePosts localeCompare "alphabetical")).
    + intros a b. unfold comparePosts. cbn. apply Htotal.
    + intros a b c. unfold comparePosts. cbn. apply Htrans.
Qed.

End SortStep.

(** The witness of C4: the first-letter collation is total and
    transitive, and three titles are put in order by it. *)
Lemma C4_sort_orders_by_mode_witness :
  let filtered := [Sample.post 2 1 "qui est esse" "b"; Sample.post 3 1 "ea molestias" "c";
                   Sample.post 1 1 "sunt aut facere" "a"] in
  StronglySorted
    (fun a b => Sample.firstLetterCompare (Post.title a) (Post.title b) <= 0)
    (sortPosts Sample.firstLetterCompare "alphabetical" filtered) /\
  Permutation (sortPosts Sample.firstLetterCompare "alphabetical" filtered) filtered.
Proof.
  intros filtered.
  apply (proj2 (proj2 (C4_sort_orders_by_mode Sample.firstLetterCompare filtered))).
  - intros a b. unfold Sample.firstLetterCompare. lia.
  - intros a b c. unfold Sample.firstLetterCompare. lia.
Defined.

Example sort_alphabetical_ex :
  map Post.id
    (sortPosts Sample.firstLetterCompare "alphabetical"
       [Sample.post 2 1 "qui est esse" "b"; Sample.post 3 1 "ea molestias" "c";
        Sample.post 1 1 "sunt aut facere" "a"])
  = [3; 2; 1].
Proof. reflexivity. Qed.

(** ** Enrichment *)

Example tags_ex :
  map (fun i => Post.tags (Sample.post i 1 "t" "b")) [1; 2; 3]
  = [["business"; "health"]; ["health"]; ["tech"; "business"; "health"]].
Proof. reflexivity. Qed.

(** The remainder of JavaScript and the residue modulo 3. *)
Lemma js_rem_3_cases (i : Z) :
  (js_rem i 3 = 0 /\ i mod 3 = 0) \/
  (js_rem i 3 = 1 /\ i mod 3 = 1) \/
  (js_rem i 3 = 2 /\ i mod 3 = 2) \/
  (js_rem i 3 = -1 /\ i mod 3 = 2) \/
  (js_rem i 3 = -2 /\ i mod 3 = 1).
Proof.
  unfold js_rem.
  pose proof (Z.quot_rem' i 3) as Hq.
  pose proof (Z.div_mod i 3 ltac:(lia)) as Hd.
  pose proof (Z.mod_pos_bound i 3 ltac:(lia)) as Hm.
  destruct (Z.le_gt_cases 0 i) as [Hi | Hi].
  - pose proof (Z.rem_bound_pos i 3 Hi ltac:(lia)). lia.
  - pose proof (Z.rem_bound_pos_neg i 3 ltac:(lia) ltac:(lia)). lia.
Qed.

(** C2, as the code has it.  The tag list of a post is the vocabulary
    without its first (id mod 3) elements, so its length is
    3 - (id mod 3). *)
Theorem C2_tags_drop_id_mod_3 (users : list User.t) (post : RawPost.t) :
  Post.tags (enrichPost users post)
  = skipn (Z.to_nat (RawPost.id post mod 3)) ["tech"; "business"; "health"] /\
  Z.of_nat (length (Post.tags (enrichPost users post))) = 3 - RawPost.id post mod 3.
Proof.
  unfold enrichPost. cbn [Post.tags].
  destruct (js_rem_3_cases (RawPost.id post))
    as [[-> ->] | [[-> ->] | [[-> ->] | [[-> ->] | [-> ->]]]]];
    split; reflexivity.
Qed.

(** C2, as stated, fails on the post with identifier 1: its tags are the
    last two of the vocabulary, not the first one. *)
Lemma C2_counterexample :
  let post := Sample.rawPost 1 1 "sunt aut facere" "quia et suscipit" in
  Post.tags (enrichPost [Sample.leanne] post) = ["business"; "health"] /\
  Post.tags (enrichPost [Sample.leanne] post)
  <> firstn (Z.to_nat (RawPost.id post mod 3)) ["tech"; "business"; "health"] /\
  Z.of_nat (length (Post.tags (enrichPost [Sample.leanne] post)))
  <> RawPost.id post mod 3.
Proof. cbv zeta. repeat split; [discriminate | discriminate]. Qed.

(** ** Pagination *)

Section Pagination.

Variable toLowerCase : string -> string.
Variable localeCompare : string -> string -> Z.

(** C5.  With page size 12, [pageCount] is the ceiling of count / 12
    (the least number of pages of 12 that hold count posts), and on every
    page p from 1 to pageCount the visible slice is the run of the sorted
    list from index (p-1)*12 up to p*12, of length
    min (12, count - (p-1)*12). *)
Theorem C5_pagination (s : State) (debouncedSearch : string) :
  postsPerPage s = 12 ->
  let d := derive toLowerCase localeCompare s debouncedSearch in
  let count := Z.of_nat (length (filteredPosts d)) in
  (12 * (pageCount d - 1) < count <= 12 * pageCount d) /\
  (1 <= currentPage s <= pageCount d ->
   currentPosts d
   = firstn 12 (skipn (Z.to_nat ((currentPage s - 1) * 12)) (filteredPosts d)) /\
   Z.of_nat (length (currentPosts d))
   = Z.min 12 (count - (currentPage s - 1) * 12)).
Proof.
  intros Hpp d count. unfold d, derive in *. cbn [filteredPosts pageCount currentPosts] in *.
  rewrite Hpp in *.
  set (sorted := sortPosts localeCompare (sortBy s) (filterPosts toLowerCase (posts s) debouncedSearch)) in *.
  pose proof (Math_ceil_div_spec (Z.of_nat (length sorted)) 12 ltac:(lia)) as Hceil.
  split; [exact Hceil |].
  intros Hp. split.
  - rewrite slice_window by lia. f_equal; [| f_equal]; f_equal; lia.
  - rewrite slice_window_length by lia. unfold count. lia.
Qed.

End Pagination.

Lemma C5_pagination_witness :
  let s := Sample.loaded 13 2 in
  let d := derive Sample.toLowerCase Sample.firstLetterCompare s "" in
  let count := Z.of_nat (length (filteredPosts d)) in
  (12 * (pageCount d - 1) < count <= 12 * pageCount d) /\
  (1 <= currentPage s <= pageCount d ->
   currentPosts d
   = firstn 12 (skipn (Z.to_nat ((currentPage s - 1) * 12)) (filteredPosts d)) /\
   Z.of_nat (length (currentPosts d))
   = Z.min 12 (count - (currentPage s - 1) * 12)).
Proof.
  apply (C5_pagination Sample.toLowerCase Sample.firstLetterCompare (Sample.loaded 13 2) "").
  reflexivity.
Defined.

Example pagination_ex :
  let d := derive Sample.toLowerCase Sample.firstLetterCompare (Sample.loaded 13 2) "" in
  pageCount d = 2 /\ map Post.id (currentPosts d) = [1] /\
  map Post.id (filteredPosts d) = [13; 12; 11; 10; 9; 8; 7; 6; 5; 4; 3; 2; 1].
Proof. repeat split; reflexivity. Qed.

(** ** The page invariant *)

Section PageInvariant.

Variable toLowerCase : string -> string.
Variable localeCompare : string -> string -> Z.

Lemma pageCount_positive (s : State) (debouncedSearch : string) :
  postsPerPage s = 12 ->
  filteredPosts (derive toLowerCase localeCompare s debouncedSearch) <> [] ->
  1 <= pageCount (derive toLowerCase localeCompare s debouncedSearch).
Proof.
  unfold derive. cbn [filteredPosts pageCount]. intros -> Hne.
  set (sorted := sortPosts _ _ _) in *.
  pose proof (Math_ceil_div_spec (Z.of_nat (length sorted)) 12 ltac:(lia)).
  destruct sorted; [congruence | cbn [length] in *; lia].
Qed.

Lemma pageCount_sortBy (s : State) (debouncedSearch option : string) :
  pageCount (derive toLowerCase localeCompare (onSortPick option s) debouncedSearch)
  = pageCount (derive toLowerCase localeCompare s debouncedSearch).
Proof.
  unfold derive. cbn [pageCount].
  change (posts (onSortPick option s)) with (posts s).
  change (postsPerPage (onSortPick option s)) with (postsPerPage s).
  now rewrite !sortPosts_length.
Qed.

(** C3, as the code has it.  A search-text change sets [currentPage] to 1,
    and then 1 <= currentPage <= pageCount holds whenever the filtered
    list is not empty; a sort-mode change keeps 1 <= currentPage <=
    pageCount; a delete keeps 1 <= currentPage. *)
Theorem C3_page_range_after_events (s : State) (debouncedSearch : string) :
  postsPerPage s = 12 ->
  (forall value,
     let s' := onSearchChange value s in
     currentPage s' = 1 /\
     (filteredPosts (derive toLowerCase localeCompare s' debouncedSearch) <> [] ->
      1 <= currentPage s' <= pageCount (derive toLowerCase localeCompare s' debouncedSearch))) /\
  (forall option,
     let s' := onSortPick option s in
     1 <= currentPage s <= pageCount (derive toLowerCase localeCompare s debouncedSearch) ->
     1 <= currentPage s' <= pageCount (derive toLowerCase localeCompare s' debouncedSearch)) /\
  (forall postId,
     1 <= currentPage s -> 1 <= currentPage (handleDelete postId s)).
Proof.
  intros Hpp. split; [| split].
  - intros value s'. split; [reflexivity |]. intros Hne.
    change (currentPage s') with 1.
    pose proof (pageCount_positive s' debouncedSearch Hpp Hne). lia.
  - intros option s' H. unfold s'. rewrite pageCount_sortBy. exact H.
  - intros postId H. exact H.
Qed.

End PageInvariant.

Lemma C3_page_range_after_events_witness :
  let s := Sample.loaded 13 2 in
  (forall value,
     let s' := onSearchChange value s in
     currentPage s' = 1 /\
     (filteredPosts (derive Sample.toLowerCase Sample.firstLetterCompare s' "") <> [] ->
      1 <= currentPage s' <= pageCount (derive Sample.toLowerCase Sample.firstLetterCompare s' ""))) /\
  (forall option,
     let s' := onSortPick option s in
     1 <= currentPage s <= pageCount (derive Sample.toLowerCase Sample.firstLetterCompare s "") ->
     1 <= currentPage s' <= pageCount (derive Sample.toLowerCase Sample.firstLetterCompare s' "")) /\
  (forall postId,
     1 <= currentPage s -> 1 <= currentPage (handleDelete postId s)).
Proof.
  apply (C3_page_range_after_events Sample.toLowerCase Sample.firstLetterCompare (Sample.loaded 13 2) "").
  reflexivity.
Defined.

(** C3, as stated, fails twice.  A search that matches nothing leaves
    page 1 of 0 pages.  With 13 posts, newest first, page 2 shows post 1
    alone; deleting it leaves page 2 of 1 page, although page 2 of 2 was
    in range before. *)
Lemma C3_counterexample :
  (let s := onSearchChange "zzz" (Sample.loaded 13 2) in
   currentPage s = 1 /\
   pageCount (derive Sample.toLowerCase Sample.firstLetterCompare s "zzz") = 0 /\
   ~ (1 <= currentPage s <= pageCount (derive Sample.toLowerCase Sample.firstLetterCompare s "zzz"))) /\
  (let s0 := Sample.loaded 13 2 in
   let s := onDeleteConfirm
              (onDeleteClick (Sample.post 1 1 "qui est esse" "et iusto sed quo iure") s0) in
   map Post.id (currentPosts (derive Sample.toLowerCase Sample.firstLetterCompare s0 "")) = [1] /\
   (1 <= currentPage s0 <= pageCount (derive Sample.toLowerCase Sample.firstLetterCompare s0 "")) /\
   currentPage s = 2 /\
   pageCount (derive Sample.toLowerCase Sample.firstLetterCompare s "") = 1 /\
   ~ (1 <= currentPage s <= pageCount (derive Sample.toLowerCase Sample.firstLetterCompare s ""))).
Proof.
  split; cbv zeta.
  - assert (E : pageCount (derive Sample.toLowerCase Sample.firstLetterCompare
                             (onSearchChange "zzz" (Sample.loaded 13 2)) "zzz") = 0)
      by (vm_compute; reflexivity).
    rewrite E. repeat split; [lia].
  - assert (E0 : pageCount (derive Sample.toLowerCase Sample.firstLetterCompare (Sample.loaded 13 2) "") = 2)
      by (vm_compute; reflexivity).
    assert (E : pageCount (derive Sample.toLowerCase Sample.firstLetterCompare
                  (onDeleteConfirm
                     (onDeleteClick (Sample.post 1 1 "qui est esse" "et iusto sed quo iure")
                        (Sample.loaded 13 2))) "") = 1)
      by (vm_compute; reflexivity).
    rewrite E0, E.
    change (currentPage (onDeleteConfirm _)) with 2.
    change (currentPage (Sample.loaded 13 2)) with 2.
    split; [vm_compute; reflexivity |]. repeat split; lia.
Qed.

(** ** Favourites *)

Lemma array_includes_In (xs : list Z) (x : Z) :
  JsArray.includes xs x = true <-> In x xs.
Proof.
  unfold JsArray.includes. rewrite existsb_exists. split.
  - intros [y [Hy E]]. apply Z.eqb_eq in E. now subst.
  - intros H. exists x. split; [exact H | apply Z.eqb_refl].
Qed.

Lemma array_includes_false (xs : list Z) (x : Z) :
  JsArray.includes xs x = false <-> ~ In x xs.
Proof.
  rewrite <- array_includes_In. destruct (JsArray.includes xs x); split; congruence.
Qed.

Lemma without_In (xs : list Z) (x y : Z) :
  In y (List.filter (fun id => negb (id =? x)) xs) <-> In y xs /\ y <> x.
Proof. rewrite filter_In, negb_true_iff, Z.eqb_neq. reflexivity. Qed.

Lemma favorites_toggleFavorite (postId : Z) (s : State) (ls : gmap string string) :
  favorites (toggleFavorite postId s ls).1
  = if JsArray.includes (favorites s) postId
    then List.filter (fun id => negb (id =? postId)) (favorites s)
    else favorites s ++ [postId].
Proof. reflexivity. Qed.

Lemma storage_toggleFavorite (postId : Z) (s : State) (ls : gmap string string) :
  (toggleFavorite postId s ls).2 !! "favorites"
  = Some (JsArray.JSON_stringify (favorites (toggleFavorite postId s ls).1)).
Proof. unfold toggleFavorite. cbn [fst snd]. apply lookup_insert_eq. Qed.

Lemma toggle_twice_In (postId : Z) (s : State) (ls ls' : gmap string string) (x : Z) :
  In x (favorites (toggleFavorite postId (toggleFavorite postId s ls).1 ls').1)
  <-> In x (favorites s).
Proof.
  rewrite !favorites_toggleFavorite.
  destruct (JsArray.includes (favorites s) postId) eqn:E.
  - apply array_includes_In in E.
    assert (E' : JsArray.includes
                   (List.filter (fun id => negb (id =? postId)) (favorites s)) postId
                 = false).
    { apply array_includes_false. rewrite without_In. tauto. }
    rewrite E', in_app_iff, without_In. cbn [In].
    destruct (Z.eq_dec x postId) as [-> | Hne]; intuition congruence.
  - apply array_includes_false in E.
    assert (E' : JsArray.includes (favorites s ++ [postId]) postId = true).
    { apply array_includes_In, in_app_iff. right. now left. }
    rewrite E', without_In, in_app_iff. cbn [In].
    destruct (Z.eq_dec x postId) as [-> | Hne]; intuition congruence.
Qed.

(** C6.  Toggling the same post twice gives back the original set of
    favourites, and after each of the two toggles the value stored under
    the key "favorites" is the serialisation of the favourites in
    memory. *)
Theorem C6_toggle_twice_restores_favorites
    (s : State) (localStorage : gmap string string) (postId : Z) :
  let once := toggleFavorite postId s localStorage in
  let twice := toggleFavorite postId once.1 once.2 in
  (list_to_set (favorites twice.1) : gset Z) = list_to_set (favorites s) /\
  once.2 !! "favorites" = Some (JsArray.JSON_stringify (favorites once.1)) /\
  twice.2 !! "favorites" = Some (JsArray.JSON_stringify (favorites twice.1)).
Proof.
  intros once twice. split; [| split].
  - apply set_eq. intros x. rewrite !elem_of_list_to_set, !list_elem_of_In.
    apply toggle_twice_In.
  - apply storage_toggleFavorite.
  - apply storage_toggleFavorite.
Qed.

Example toggle_ex :
  let once := toggleFavorite 1 (set_favorites [1; 2] (Sample.loaded 3 1)) ∅ in
  let twice := toggleFavorite 1 once.1 once.2 in
  favorites once.1 = [2] /\ once.2 !! "favorites" = Some "[2]" /\
  favorites twice.1 = [2; 1] /\ twice.2 !! "favorites" = Some "[2,1]".
Proof. repeat split; reflexivity. Qed.

(** ** Fetch errors *)

(** C7.  The classifier gives one message per error: with a response,
    "Error: " followed by the status code and the status text, both of
    which occur in the message; without a response but with a request,
    "Server is not responding"; otherwise "Failed to fetch posts.". *)
Theorem C7_error_classifier (err : AxiosError.t) (s : State) :
  let msg := error (handleError err s) in
  (forall r, AxiosError.response err = Some r ->
     msg = "Error: " +:+ JsString.toString (AxiosError.status r) +:+ " "
                     +:+ AxiosError.statusText r /\
     JsString.includes msg (JsString.toString (AxiosError.status r)) = true /\
     JsString.includes msg (AxiosError.statusText r) = true) /\
  (AxiosError.response err = None -> AxiosError.request err <> None ->
     msg = "Server is not responding") /\
  (AxiosError.response err = None -> AxiosError.request err = None ->
     msg = "Failed to fetch posts.").
Proof.
  intros msg. unfold msg, handleError. cbn [error set_error]. unfold errorMessage.
  split; [| split].
  - intros r ->. split; [reflexivity | split].
    + apply includes_middle.
    + apply includes_spec.
      exists ("Error: " +:+ JsString.toString (AxiosError.status r) +:+ " "), "".
      now rewrite append_empty_r, !append_assoc.
  - intros -> Hreq. destruct (AxiosError.request err); [reflexivity | congruence].
  - now intros -> ->.
Qed.

Lemma C7_error_classifier_witness :
  let msg := error (handleError Sample.serverError (Sample.loaded 0 1)) in
  msg = "Error: 500 Internal Server Error" /\
  JsString.includes msg "500" = true /\
  JsString.includes msg "Internal Server Error" = true.
Proof.
  intros msg.
  apply (proj1 (C7_error_classifier Sample.serverError (Sample.loaded 0 1))
           {| AxiosError.status := 500;
              AxiosError.statusText := "Internal Server Error" |}).
  reflexivity.
Defined.

Lemma errorMessage_nonempty (err : AxiosError.t) : errorMessage err <> "".
Proof.
  unfold errorMessage.
  destruct (AxiosError.response err) as [r |];
    [| destruct (AxiosError.request err)]; discriminate.
Qed.

(** C8.  When the posts request or the users request is rejected, the
    load fails as a whole: the post list of the state stays empty, so
    nothing is listed, loading ends, and the message shown is the
    classifier's message for one of the rejected requests. *)
Theorem C8_failed_fetch_fails_the_load
    (toLowerCase : string -> string)
    (localeCompare : string -> string -> Z) (stored : option (list Z))
    (postsGet : Settled (list RawPost.t)) (usersGet : Settled (list User.t))
    (users_first : bool) (debouncedSearch : string) :
  isRejected postsGet \/ isRejected usersGet ->
  let s' := fetchData postsGet usersGet users_first (initialState stored) in
  posts s' = [] /\
  currentPosts (derive toLowerCase localeCompare s' debouncedSearch) = [] /\
  loading s' = false /\
  exists err,
    (postsGet = Rejected err \/ usersGet = Rejected err) /\
    error s' = errorMessage err /\ error s' <> "".
Proof.
  intros Hrej s'. unfold s', fetchData.
  destruct postsGet as [postsRes | e1], usersGet as [usersRes | e2];
    cbn [Promise_all isRejected] in *.
  - tauto.
  - repeat split; try reflexivity. exists e2.
    repeat split; [now right | apply errorMessage_nonempty].
  - repeat split; try reflexivity. exists e1.
    repeat split; [now left | apply errorMessage_nonempty].
  - destruct users_first; repeat split; try reflexivity.
    + exists e2. repeat split; [now right | apply errorMessage_nonempty].
    + exists e1. repeat split; [now left | apply errorMessage_nonempty].
Qed.

Lemma C8_failed_fetch_fails_the_load_witness :
  let s' := fetchData (Rejected Sample.serverError)
              (Fulfilled [Sample.leanne]) false (initialState None) in
  posts s' = [] /\
  currentPosts (derive Sample.toLowerCase Sample.firstLetterCompare s' "") = [] /\
  loading s' = false /\
  exists err,
    (@Rejected (list RawPost.t) Sample.serverError = Rejected err \/
     @Fulfilled (list User.t) [Sample.leanne] = Rejected err) /\
    error s' = errorMessage err /\ error s' <> "".
Proof.
  apply (C8_failed_fetch_fails_the_load Sample.toLowerCase Sample.firstLetterCompare None
           (Rejected Sample.serverError) (Fulfilled [Sample.leanne]) false "").
  left. exact I.
Defined.

Example fetch_ex :
  let ok := fetchData (Fulfilled [Sample.rawPost 1 1 "sunt aut facere" "quia et suscipit"])
              (Fulfilled [Sample.leanne]) false (initialState None) in
  let ko := fetchData (Fulfilled [Sample.rawPost 1 1 "sunt aut facere" "quia et suscipit"])
              (Rejected Sample.timeout) false (initialState None) in
  map Post.user (posts ok) = [Some Sample.leanne] /\ error ok = "" /\
  posts ko = [] /\ error ko = "Server is not responding".
Proof. repeat split; reflexivity. Qed.

(** ** Deleting a post *)

Section Delete.

Variable toLowerCase : string -> string.
Variable localeCompare : string -> string -> Z.

Lemma filter_keeps_all {A : Type} (f : A -> bool) (l : list A) :
  (forall a, In a l -> f a = true) -> List.filter f l = l.
Proof.
  induction l as [|a l IH]; intros H; [reflexivity |].
  cbn [List.filter]. rewrite (H a (or_introl eq_refl)).
  f_equal. apply IH. intros b Hb. apply H. now right.
Qed.

Lemma delete_by_id (X : Z) (l1 l2 : list Post.t) (p : Post.t) :
  Post.id p = X ->
  List.NoDup (map Post.id (l1 ++ p :: l2)) ->
  List.filter (fun q => negb (Post.id q =? X)) (l1 ++ p :: l2) = l1 ++ l2.
Proof.
  intros Hp Hnd. rewrite map_app in Hnd. cbn [map] in Hnd.
  apply List.NoDup_remove_2 in Hnd. rewrite Hp, in_app_iff in Hnd.
  rewrite List.filter_app. cbn [List.filter].
  rewrite Hp, Z.eqb_refl. cbn [negb].
  rewrite !filter_keeps_all; [reflexivity | |];
    intros q Hq; apply negb_true_iff, Z.eqb_neq; intros E;
    apply Hnd; [right | left]; rewrite <- E; now apply in_map.
Qed.

(** A page beyond the last one shows nothing. *)
Lemma page_beyond_last_is_empty (s : State) (debouncedSearch : string) :
  postsPerPage s = 12 -> 1 <= currentPage s ->
  pageCount (derive toLowerCase localeCompare s debouncedSearch) < currentPage s ->
  currentPosts (derive toLowerCase localeCompare s debouncedSearch) = [].
Proof.
  unfold derive. cbn [pageCount currentPosts]. intros -> H1 Hlt.
  set (sorted := sortPosts _ _ _) in *.
  pose proof (Math_ceil_div_spec (Z.of_nat (length sorted)) 12 ltac:(lia)).
  rewrite slice_window by lia.
  rewrite skipn_all2 by lia. apply firstn_nil.
Qed.

(** C9.  Confirming the delete of candidate [x] removes the post with the
    identifier of [x] and nothing else, keeps the other posts in their
    order, clears the candidate and opens the toast; the pipeline is then
    recomputed as on any state, and when the current page lies beyond the
    last page the visible slice is the empty list. *)
Theorem C9_confirm_delete_removes_exactly_the_candidate
    (s : State) (x p : Post.t) (l1 l2 : list Post.t) :
  deleteCandidate s = Some x ->
  posts s = l1 ++ p :: l2 ->
  Post.id p = Post.id x ->
  List.NoDup (map Post.id (posts s)) ->
  let s' := onDeleteConfirm s in
  posts s' = l1 ++ l2 /\
  deleteCandidate s' = None /\
  snackbarOpen s' = true /\
  snackbarMessage s' = "Post deleted successfully" /\
  (forall debouncedSearch,
     postsPerPage s = 12 -> 1 <= currentPage s ->
     let d := derive toLowerCase localeCompare s' debouncedSearch in
     (12 * (pageCount d - 1) < Z.of_nat (length (filteredPosts d)) <= 12 * pageCount d) /\
     (pageCount d < currentPage s' -> currentPosts d = [])).
Proof.
  intros Hc Hposts Hid Hnd s'. unfold s', onDeleteConfirm. rewrite Hc.
  cbn [option_map]. repeat split; try reflexivity.
  - unfold handleDelete. cbn [posts set_deleteCandidate set_snackbar set_posts].
    rewrite Hposts in *. now apply delete_by_id.
  - unfold derive. cbn [pageCount filteredPosts].
    change (postsPerPage (handleDelete _ s)) with (postsPerPage s). rewrite H.
    apply Math_ceil_div_spec. lia.
  - unfold derive. cbn [pageCount filteredPosts].
    change (postsPerPage (handleDelete _ s)) with (postsPerPage s). rewrite H.
    apply Math_ceil_div_spec. lia.
  - intros Hlt. apply page_beyond_last_is_empty; assumption.
Qed.

End Delete.

Lemma C9_confirm_delete_removes_exactly_the_candidate_witness :
  let x := Sample.post 1 1 "qui est esse" "et iusto sed quo iure" in
  let s := onDeleteClick x (Sample.loaded 13 2) in
  let s' := onDeleteConfirm s in
  posts s' = [] ++ Sample.numbered 2 12 /\
  deleteCandidate s' = None /\
  snackbarOpen s' = true /\
  snackbarMessage s' = "Post deleted successfully" /\
  (forall debouncedSearch,
     postsPerPage s = 12 -> 1 <= currentPage s ->
     let d := derive Sample.toLowerCase Sample.firstLetterCompare s' debouncedSearch in
     (12 * (pageCount d - 1) < Z.of_nat (length (filteredPosts d)) <= 12 * pageCount d) /\
     (pageCount d < currentPage s' -> currentPosts d = [])).
Proof.
  intros x s.
  apply (C9_confirm_delete_removes_exactly_the_candidate Sample.toLowerCase Sample.firstLetterCompare
           s x x [] (Sample.numbered 2 12)).
  - reflexivity.
  - reflexivity.
  - reflexivity.
  - vm_compute.
    repeat (apply List.NoDup_cons; [intros H; cbn in H; lia |]).
    apply List.NoDup_nil.
Defined.

Example delete_ex :
  let s := onDeleteConfirm
             (onDeleteClick (Sample.post 1 1 "qui est esse" "et iusto sed quo iure")
                (Sample.loaded 13 2)) in
  map Post.id (posts s) = [2; 3; 4; 5; 6; 7; 8; 9; 10; 11; 12; 13] /\
  currentPage s = 2 /\
  pageCount (derive Sample.toLowerCase Sample.firstLetterCompare s "") = 1 /\
  currentPosts (derive Sample.toLowerCase Sample.firstLetterCompare s "") = [].
Proof. repeat split; reflexivity. Qed.

(** * Further properties of the component *)

(** ** Pages *)

Section Pages.

Variable toLowerCase : string -> string.
Variable localeCompare : string -> string -> Z.

Lemma firstn_then_firstn_skipn {A : Type} (k m : nat) (l : list A) :
  firstn k l ++ firstn m (skipn k l) = firstn (k + m) l.
Proof.
  revert l. induction k as [|k IH]; intros l; [reflexivity |].
  destruct l as [|a l]; cbn [firstn skipn Nat.add app].
  - now rewrite firstn_nil.
  - now rewrite IH.
Qed.

Lemma skipn_skipn_add {A : Type} (i j : nat) (l : list A) :
  skipn i (skipn j l) = skipn (j + i) l.
Proof.
  revert l. induction j as [|j IH]; intros l; [reflexivity |].
  destruct l as [|a l]; cbn [skipn Nat.add]; [apply skipn_nil | apply IH].
Qed.

(** The windows of pages [a], [a+1], ..., [a+n-1], one after the other. *)
Lemma page_windows_concat {A : Type} (l : list A) (n a : nat) :
  (1 <= a)%nat ->
  flat_map (fun p => JsArray.slice l (Z.of_nat p * 12 - 12) (Some (Z.of_nat p * 12)))
           (seq a n)
  = firstn (n * 12) (skipn ((a - 1) * 12) l).
Proof.
  revert a. induction n as [|n IH]; intros a Ha; [reflexivity |].
  cbn [seq flat_map]. rewrite IH by lia. rewrite slice_window by lia.
  replace (Z.to_nat (Z.of_nat a * 12 - (Z.of_nat a * 12 - 12))) with 12%nat by lia.
  replace (Z.to_nat (Z.of_nat a * 12 - 12)) with ((a - 1) * 12)%nat by lia.
  replace ((S a - 1) * 12)%nat with ((a - 1) * 12 + 12)%nat by lia.
  rewrite <- skipn_skipn_add. rewrite firstn_then_firstn_skipn.
  f_equal.
Qed.

Lemma derive_on_page (s : State) (debouncedSearch : string) (page : Z) :
  currentPosts (derive toLowerCase localeCompare (onPageChange page s) debouncedSearch)
  = JsArray.slice (filteredPosts (derive toLowerCase localeCompare s debouncedSearch))
      (page * postsPerPage s - postsPerPage s) (Some (page * postsPerPage s)).
Proof. reflexivity. Qed.

Lemma pageCount_bounds (s : State) (debouncedSearch : string) :
  postsPerPage s = 12 ->
  12 * (pageCount (derive toLowerCase localeCompare s debouncedSearch) - 1)
  < Z.of_nat (length (filteredPosts (derive toLowerCase localeCompare s debouncedSearch)))
  <= 12 * pageCount (derive toLowerCase localeCompare s debouncedSearch).
Proof.
  unfold derive. cbn [pageCount filteredPosts]. intros ->.
  apply Math_ceil_div_spec. lia.
Qed.

(** X1.  Going through the pager from page 1 to page [pageCount] shows the
    sorted list of matches exactly once: the visible slices, put one
    after the other, are the whole list, with no post missing and none
    repeated. *)
Theorem X1_pages_cover_the_matches (s : State) (debouncedSearch : string) :
  postsPerPage s = 12 ->
  let d := derive toLowerCase localeCompare s debouncedSearch in
  flat_map
    (fun p => currentPosts
                (derive toLowerCase localeCompare (onPageChange (Z.of_nat p) s) debouncedSearch))
    (seq 1 (Z.to_nat (pageCount d)))
  = filteredPosts d.
Proof.
  intros Hpp d.
  erewrite flat_map_ext by (intros p; rewrite derive_on_page, Hpp; reflexivity).
  fold d. rewrite page_windows_concat by lia.
  cbn [Nat.sub Nat.mul skipn]. apply firstn_all2.
  pose proof (pageCount_bounds s debouncedSearch Hpp) as H. fold d in H. lia.
Qed.

End Pages.

Lemma X1_pages_cover_the_matches_witness :
  let s := Sample.loaded 30 2 in
  let d := derive Sample.toLowerCase Sample.firstLetterCompare s "" in
  flat_map
    (fun p => currentPosts
                (derive Sample.toLowerCase Sample.firstLetterCompare (onPageChange (Z.of_nat p) s) ""))
    (seq 1 (Z.to_nat (pageCount d)))
  = filteredPosts d.
Proof.
  apply (X1_pages_cover_the_matches Sample.toLowerCase Sample.firstLetterCompare (Sample.loaded 30 2) "").
  reflexivity.
Defined.

Section PageEdges.

Variable toLowerCase : string -> string.
Variable localeCompare : string -> string -> Z.

Lemma slice_page_zero {A : Type} (l : list A) :
  JsArray.slice l (0 * 12 - 12) (Some (0 * 12)) = [].
Proof.
  unfold JsArray.slice, JsArray.relative_index.
  change (0 * 12 - 12 <? 0) with true. change (0 * 12 <? 0) with false.
  cbv iota.
  match goal with
  | |- firstn ?n _ = _ => replace n with 0%nat by lia
  end.
  reflexivity.
Qed.

(** X2.  With a page number that is not negative, the visible slice is
    empty exactly when the page is 0 or lies beyond [pageCount]; every
    page from 1 to [pageCount] shows at least one post. *)
Theorem X2_blank_page_iff_out_of_range (s : State) (debouncedSearch : string) :
  postsPerPage s = 12 -> 0 <= currentPage s ->
  let d := derive toLowerCase localeCompare s debouncedSearch in
  currentPosts d = [] <-> currentPage s = 0 \/ pageCount d < currentPage s.
Proof.
  intros Hpp Hp d.
  pose proof (pageCount_bounds toLowerCase localeCompare s debouncedSearch Hpp) as Hb. fold d in Hb.
  assert (E : currentPosts d
              = JsArray.slice (filteredPosts d) (currentPage s * 12 - 12)
                  (Some (currentPage s * 12)))
    by (unfold d, derive; cbn [currentPosts filteredPosts]; now rewrite Hpp).
  rewrite E. destruct (Z.eq_dec (currentPage s) 0) as [E0 | Hne].
  - rewrite E0, slice_page_zero. split; [now left | reflexivity].
  - rewrite <- length_zero_iff_nil.
    pose proof (slice_window_length (filteredPosts d) (currentPage s * 12 - 12)
                  (currentPage s * 12) ltac:(lia)) as Hl.
    split; intros H.
    + right. lia.
    + destruct H as [H | H]; [contradiction | lia].
Qed.

(** X3.  Picking a sort mode changes neither [pageCount] nor which posts
    are listed: the new sorted list is a rearrangement of the old one. *)
Theorem X3_sort_mode_keeps_the_matches (s : State) (debouncedSearch option : string) :
  pageCount (derive toLowerCase localeCompare (onSortPick option s) debouncedSearch)
  = pageCount (derive toLowerCase localeCompare s debouncedSearch) /\
  Permutation
    (filteredPosts (derive toLowerCase localeCompare (onSortPick option s) debouncedSearch))
    (filteredPosts (derive toLowerCase localeCompare s debouncedSearch)).
Proof.
  split; [apply pageCount_sortBy |].
  unfold derive. cbn [filteredPosts].
  change (posts (onSortPick option s)) with (posts s).
  now rewrite !sortPosts_perm.
Qed.

Lemma NoDup_map_filter {A B : Type} (f : A -> B) (g : A -> bool) (l : list A) :
  List.NoDup (map f l) -> List.NoDup (map f (List.filter g l)).
Proof.
  induction l as [|a l IH]; intros H; [exact H |].
  cbn [map] in H. apply List.NoDup_cons_iff in H as [Hn Hl].
  cbn [List.filter]. destruct (g a); [| now apply IH].
  cbn [map]. apply List.NoDup_cons; [| now apply IH].
  intros Hin. apply Hn. apply in_map_iff in Hin as [b [Hb Hin]].
  apply filter_In in Hin as [Hin _]. rewrite <- Hb. now apply in_map.
Qed.

Lemma NoDup_slice {B : Type} (l : list B) (i : Z) (j : option Z) :
  List.NoDup l -> List.NoDup (JsArray.slice l i j).
Proof.
  intros H. unfold JsArray.slice.
  set (k := Z.to_nat (JsArray.relative_index _ i)). set (m := Z.to_nat _).
  rewrite <- (firstn_skipn k l) in H. apply List.NoDup_app_remove_l in H.
  rewrite <- (firstn_skipn m (skipn k l)) in H.
  now apply List.NoDup_app_remove_r in H.
Qed.

Lemma map_slice {A B : Type} (f : A -> B) (l : list A) (i : Z) (j : option Z) :
  map f (JsArray.slice l i j) = JsArray.slice (map f l) i j.
Proof.
  unfold JsArray.slice. now rewrite List.length_map, List.skipn_map, List.firstn_map.
Qed.

(** X4.  When the loaded posts have distinct identifiers, so do the posts
    of every visible slice, whatever the search, the sort mode and the
    page: the cards of the grid never share a key. *)
Theorem X4_visible_posts_have_distinct_ids (s : State) (debouncedSearch : string) :
  List.NoDup (map Post.id (posts s)) ->
  List.NoDup (map Post.id (currentPosts (derive toLowerCase localeCompare s debouncedSearch))).
Proof.
  intros H. unfold derive. cbn [currentPosts]. rewrite map_slice.
  apply NoDup_slice.
  eapply Permutation_NoDup;
    [symmetry; apply Permutation_map, sortPosts_perm |].
  now apply NoDup_map_filter.
Qed.

(** X5.  Right after a search-text change the visible slice is the first
    twelve posts of the sorted matches (all of them when there are fewer),
    whichever page was shown before. *)
Theorem X5_search_change_shows_the_first_page
    (s : State) (value debouncedSearch : string) :
  postsPerPage s = 12 ->
  let d := derive toLowerCase localeCompare (onSearchChange value s) debouncedSearch in
  currentPosts d = firstn 12 (filteredPosts d).
Proof.
  intros Hpp d. unfold d, derive. cbn [currentPosts filteredPosts].
  change (postsPerPage (onSearchChange value s)) with (postsPerPage s).
  change (currentPage (onSearchChange value s)) with 1.
  rewrite Hpp. now rewrite slice_window by lia.
Qed.

End PageEdges.

Lemma X2_blank_page_iff_out_of_range_witness :
  let s := Sample.loaded 13 3 in
  let d := derive Sample.toLowerCase Sample.firstLetterCompare s "" in
  currentPosts d = [] <-> currentPage s = 0 \/ pageCount d < currentPage s.
Proof.
  apply (X2_blank_page_iff_out_of_range Sample.toLowerCase Sample.firstLetterCompare (Sample.loaded 13 3) "").
  - reflexivity.
  - cbn. lia.
Defined.

Lemma X4_visible_posts_have_distinct_ids_witness :
  List.NoDup
    (map Post.id (currentPosts (derive Sample.toLowerCase Sample.firstLetterCompare (Sample.loaded 3 1) ""))).
Proof.
  apply (X4_visible_posts_have_distinct_ids Sample.toLowerCase Sample.firstLetterCompare (Sample.loaded 3 1) "").
  vm_compute.
  repeat (apply List.NoDup_cons; [intros H; cbn in H; lia |]).
  apply List.NoDup_nil.
Defined.

Lemma X5_search_change_shows_the_first_page_witness :
  let d := derive Sample.toLowerCase Sample.firstLetterCompare
             (onSearchChange "qui" (Sample.loaded 13 2)) "qui" in
  currentPosts d = firstn 12 (filteredPosts d).
Proof.
  apply (X5_search_change_shows_the_first_page Sample.toLowerCase Sample.firstLetterCompare
           (Sample.loaded 13 2) "qui" "qui").
  reflexivity.
Defined.

(** ** Queries *)

Section Queries.

Variable toLowerCase : string -> string.

Lemma occurs_in_trans (a b c : string) :
  JsString.occurs_in a b -> JsString.occurs_in b c -> JsString.occurs_in a c.
Proof.
  intros [p1 [q1 ->]] [p2 [q2 ->]].
  exists (p2 +:+ p1), (q1 +:+ q2). now rewrite !append_assoc.
Qed.

(** X6.  Widening a query keeps the text matches: when the lower-cased
    query [s] occurs inside the lower-cased query [s'], every loaded
    post whose lower-cased title or body contains the lower-cased [s']
    is kept by the filter for [s] too. *)
Theorem X6_shorter_query_keeps_text_matches
    (P : list Post.t) (s s' : string) (p : Post.t) :
  JsString.occurs_in (toLowerCase s) (toLowerCase s') ->
  In p P ->
  JsString.occurs_in (toLowerCase s') (toLowerCase (Post.title p)) \/
  JsString.occurs_in (toLowerCase s') (toLowerCase (Post.body p)) ->
  In p (filterPosts toLowerCase P s).
Proof.
  intros Hs Hin Hmatch. unfold filterPosts.
  apply filter_In. split; [exact Hin |]. apply matchesSearch_spec.
  destruct Hmatch as [Ht | Hb].
  - left. now apply (occurs_in_trans _ (toLowerCase s')).
  - right. left. now apply (occurs_in_trans _ (toLowerCase s')).
Qed.

End Queries.

Lemma X6_shorter_query_keeps_text_matches_witness :
  let p := Sample.post 2 1 "qui est esse" "est rerum tempore vitae" in
  In p (filterPosts Sample.toLowerCase [p] "EST").
Proof.
  intros p.
  apply (X6_shorter_query_keeps_text_matches Sample.toLowerCase [p] "EST" "est esse" p).
  - exists "", " esse". reflexivity.
  - now left.
  - left. exists "qui ", "". reflexivity.
Defined.

(** ** Decimal numerals *)

Section Numerals.

Import JsString.

Lemma string_of_uint_numeral (d : Decimal.uint) :
  JsJSON.all_chars JsJSON.is_numeral_char (NilEmpty.string_of_uint d) = true.
Proof.
  induction d; cbn [NilEmpty.string_of_uint JsJSON.all_chars];
    [reflexivity | rewrite IHd; reflexivity ..].
Qed.

Lemma toString_numeral (z : Z) :
  JsJSON.all_chars JsJSON.is_numeral_char (toString z) = true.
Proof.
  unfold toString, NilZero.string_of_int.
  destruct (Z.to_int z) as [d | d].
  - destruct d; try apply string_of_uint_numeral. reflexivity.
  - cbn [JsJSON.all_chars]. cbn [andb].
    destruct d; try apply string_of_uint_numeral. reflexivity.
Qed.

End Numerals.

(** ** Favourites across a reload *)

Section Persistence.

Import JsString JsJSON.

Lemma parse_int_toString (z : Z) : parse_int (toString z) = Some z.
Proof.
  unfold parse_int, toString. rewrite NilZero.isi.
  - cbv zeta. now rewrite DecimalZ.of_to, String.eqb_refl.
  - intros H. destruct z; cbn [Z.to_int] in H; try discriminate.
    injection H as H. now apply DecimalPos.Unsigned.to_uint_nonnil in H.
  - intros H. destruct z; cbn [Z.to_int] in H; try discriminate.
    injection H as H. now apply DecimalPos.Unsigned.to_uint_nonnil in H.
Qed.

Lemma toString_nonempty (z : Z) : toString z <> "".
Proof.
  intros H. pose proof (parse_int_toString z) as P. rewrite H in P. discriminate.
Qed.

Lemma numeral_not_comma (c : Ascii.ascii) :
  is_numeral_char c = true -> Ascii.eqb c (char_of ",") = false.
Proof.
  intros H. apply Ascii.eqb_neq. intros ->. discriminate.
Qed.

Lemma fields_numeral (t : string) :
  all_chars is_numeral_char t = true -> fields (char_of ",") t = [t].
Proof.
  induction t as [|c t IH]; [reflexivity |]. cbn [all_chars fields].
  intros H. apply andb_true_iff in H as [Hc Ht].
  now rewrite (numeral_not_comma c Hc), (IH Ht).
Qed.

Lemma fields_numeral_comma (t r : string) :
  all_chars is_numeral_char t = true ->
  fields (char_of ",") (t +:+ "," +:+ r) = t :: fields (char_of ",") r.
Proof.
  induction t as [|c t IH]; intros H.
  - reflexivity.
  - cbn [all_chars] in H. apply andb_true_iff in H as [Hc Ht].
    rewrite append_cons. cbn [fields].
    now rewrite (numeral_not_comma c Hc), (IH Ht).
Qed.

Lemma fields_join (x : Z) (xs : list Z) :
  fields (char_of ",") (join "," (map toString (x :: xs))) = map toString (x :: xs).
Proof.
  revert x. induction xs as [|y xs IH]; intros x.
  - cbn [map join]. apply fields_numeral, toString_numeral.
  - change (join "," (map toString (x :: y :: xs)))
      with (toString x +:+ "," +:+ join "," (map toString (y :: xs))).
    rewrite fields_numeral_comma by apply toString_numeral.
    now rewrite IH.
Qed.

Lemma parse_ints_toString (xs : list Z) : parse_ints (map toString xs) = Some xs.
Proof.
  induction xs as [|x xs IH]; [reflexivity |].
  cbn [map parse_ints]. now rewrite parse_int_toString, IH.
Qed.

Lemma strip_closing_append (inner : string) :
  strip_closing (inner +:+ "]") = Some inner.
Proof.
  induction inner as [|c inner IH]; [reflexivity |].
  rewrite append_cons. cbn [strip_closing]. rewrite IH.
  destruct inner; reflexivity.
Qed.

Lemma join_nonempty (x : Z) (xs : list Z) :
  join "," (map toString (x :: xs)) <> "".
Proof.
  pose proof (toString_nonempty x) as Hx.
  destruct xs as [|y xs].
  - exact Hx.
  - change (join "," (map toString (x :: y :: xs)))
      with (toString x +:+ "," +:+ join "," (map toString (y :: xs))).
    destruct (toString x); [congruence | discriminate].
Qed.

(** What [JSON.stringify] writes for an array of integers, [JSON.parse]
    reads back as that array. *)
Lemma JSON_parse_stringify (xs : list Z) :
  JSON_parse (JsArray.JSON_stringify xs) = Some xs.
Proof.
  unfold JsArray.JSON_stringify.
  change ("[" +:+ ?r) with (String (char_of "[") r).
  cbn [JSON_parse]. rewrite Ascii.eqb_refl, strip_closing_append.
  destruct xs as [|x xs]; [reflexivity |].
  pose proof (join_nonempty x xs) as Hne.
  destruct (join "," (map toString (x :: xs))) eqn:E; [congruence |].
  rewrite <- E, fields_join. apply parse_ints_toString.
Qed.

(** X8.  Favourites survive a reload: after a toggle, a fresh mount that
    reads the browser's [localStorage] starts with exactly the array of
    favourites that the toggle left in memory. *)
Theorem X8_favorites_survive_reload
    (s : State) (localStorage : gmap string string) (postId : Z) :
  let after := toggleFavorite postId s localStorage in
  Mount.mount after.2 = Some (initialState (Some (favorites after.1))) /\
  option_map favorites (Mount.mount after.2) = Some (favorites after.1).
Proof.
  intros after. subst after. unfold Mount.mount.
  rewrite (storage_toggleFavorite postId s localStorage).
  rewrite JSON_parse_stringify. split; reflexivity.
Qed.

End Persistence.

Example JSON_parse_ex :
  JsJSON.JSON_parse "[3,-14,0]" = Some [3; -14; 0] /\
  JsJSON.JSON_parse "[]" = Some [] /\
  JsJSON.JSON_parse "[01]" = None /\
  JsJSON.JSON_parse "[1,]" = None /\
  JsJSON.JSON_parse "1,2" = None.
Proof. repeat split; reflexivity. Qed.

(** ** One toggle *)

Section Toggle.

Lemma heart_after_toggle
    (s base : State) (localStorage : gmap string string) (postId : Z) (post : Post.t) :
  favorites base = favorites (toggleFavorite postId s localStorage).1 ->
  View.heartFilled (View.card base post)
  = (if Post.id post =? postId
     then negb (View.heartFilled (View.card s post))
     else View.heartFilled (View.card s post)).
Proof.
  intros H. cbn [View.card View.heartFilled]. rewrite H, favorites_toggleFavorite.
  destruct (Z.eqb_spec (Post.id post) postId) as [-> | Hne].
  - destruct (JsArray.includes (favorites s) postId) eqn:E; cbn [negb].
    + apply array_includes_false. rewrite without_In. tauto.
    + apply array_includes_In, in_app_iff. right. now left.
  - destruct (JsArray.includes (favorites s) postId) eqn:E.
    + destruct (JsArray.includes (favorites s) (Post.id post)) eqn:E'.
      * apply array_includes_In. rewrite without_In.
        apply array_includes_In in E'. tauto.
      * apply array_includes_false. rewrite without_In.
        apply array_includes_false in E'. tauto.
    + destruct (JsArray.includes (favorites s) (Post.id post)) eqn:E'.
      * apply array_includes_In, in_app_iff. left.
        now apply array_includes_In.
      * apply array_includes_false. rewrite in_app_iff. cbn [In].
        apply array_includes_false in E'. intuition congruence.
Qed.

(** X9.  [toggleFavorite] flips the heart of every card with the toggled
    identifier and leaves the hearts of all other cards as they were,
    and this is so whether or not the snackbar's close handler runs
    around it (before it, or after it); the message the toggle sets is
    "Added to favorites" exactly when the post is a favourite after
    it. *)
Theorem X9_toggle_flips_one_heart
    (s : State) (localStorage : gmap string string) (postId : Z) (post : Post.t) :
  let s' := (toggleFavorite postId s localStorage).1 in
  let flipped :=
    if Post.id post =? postId
    then negb (View.heartFilled (View.card s post))
    else View.heartFilled (View.card s post) in
  View.heartFilled (View.card s' post) = flipped /\
  View.heartFilled (View.card (onSnackbarClose s') post) = flipped /\
  View.heartFilled
    (View.card (toggleFavorite postId (onSnackbarClose s) localStorage).1 post)
  = flipped /\
  (snackbarMessage s' = "Added to favorites" <-> In postId (favorites s')).
Proof.
  intros s' flipped. subst s' flipped.
  split; [| split; [| split]].
  - now apply (heart_after_toggle s _ localStorage).
  - now apply (heart_after_toggle s _ localStorage).
  - now apply (heart_after_toggle s _ localStorage).
  - rewrite favorites_toggleFavorite.
    unfold toggleFavorite. cbn [fst snackbarMessage set_snackbar].
    destruct (JsArray.includes (favorites s) postId) eqn:E.
    + split; [discriminate |]. rewrite without_In. tauto.
    + split; [| reflexivity]. intros _. apply in_app_iff. right. now left.
Qed.

(** X10.  A toggle never introduces a duplicate: when the favourites hold
    no identifier twice before the click, they hold none twice after it. *)
Theorem X10_toggle_keeps_favorites_duplicate_free
    (s : State) (localStorage : gmap string string) (postId : Z) :
  List.NoDup (favorites s) ->
  List.NoDup (favorites (toggleFavorite postId s localStorage).1).
Proof.
  intros H. rewrite favorites_toggleFavorite.
  destruct (JsArray.includes (favorites s) postId) eqn:E.
  - now apply List.NoDup_filter.
  - apply array_includes_false in E.
    apply List.NoDup_app; [exact H | repeat constructor; cbn; tauto |].
    intros x Hx [<- | []]. contradiction.
Qed.

End Toggle.

Lemma X10_toggle_keeps_favorites_duplicate_free_witness :
  List.NoDup (favorites (toggleFavorite 2 (set_favorites [1; 2; 3] (Sample.loaded 3 1)) ∅).1).
Proof.
  apply (X10_toggle_keeps_favorites_duplicate_free
           (set_favorites [1; 2; 3] (Sample.loaded 3 1)) ∅ 2).
  cbn [favorites set_favorites].
  repeat (apply List.NoDup_cons; [intros H; cbn in H; lia |]).
  apply List.NoDup_nil.
Defined.

(** ** Enrichment and a successful load *)

Section Enrichment.

Variable toLowerCase : string -> string.
Variable localeCompare : string -> string -> Z.

(** X11.  The author joined to a post is the first user of the users
    array whose identifier is the post's [userId]; a post gets no author
    exactly when no user has that identifier. *)
Theorem X11_author_is_the_first_user_with_the_id
    (users : list User.t) (post : RawPost.t) :
  match Post.user (enrichPost users post) with
  | Some u =>
      exists before after,
        users = before ++ u :: after /\
        User.id u = RawPost.userId post /\
        forall v, In v before -> User.id v <> RawPost.userId post
  | None => forall v, In v users -> User.id v <> RawPost.userId post
  end.
Proof.
  unfold enrichPost. cbn [Post.user].
  induction users as [|w users IH]; cbn [List.find].
  - intros v [].
  - destruct (Z.eqb_spec (User.id w) (RawPost.userId post)) as [E | Hne].
    + exists [], users. repeat split; [exact E | intros v []].
    + destruct (List.find _ users) as [u |].
      * destruct IH as [before [after [-> [Hu Hb]]]].
        exists (w :: before), after. repeat split; [exact Hu |].
        intros v [<- | Hv]; [exact Hne | now apply Hb].
      * intros v [<- | Hv]; [exact Hne | now apply IH].
Qed.

Lemma tags_cases (users : list User.t) (post : RawPost.t) :
  Post.tags (enrichPost users post) = ["tech"; "business"; "health"] \/
  Post.tags (enrichPost users post) = ["business"; "health"] \/
  Post.tags (enrichPost users post) = ["health"].
Proof.
  unfold enrichPost. cbn [Post.tags].
  destruct (js_rem_3_cases (RawPost.id post))
    as [[-> _] | [[-> _] | [[-> _] | [[-> _] | [-> _]]]]]; auto.
Qed.

(** X12.  Whatever its identifier, negative ones included, a post gets
    between one and three tags, the last of them is "health", and no tag
    occurs twice (the chips of a card have distinct keys). *)
Theorem X12_every_post_is_tagged_health (users : list User.t) (post : RawPost.t) :
  let tags := Post.tags (enrichPost users post) in
  (1 <= length tags <= 3)%nat /\
  List.last tags "" = "health" /\
  List.NoDup tags.
Proof.
  intros tags. subst tags.
  destruct (tags_cases users post) as [-> | [-> | ->]];
    (split; [cbn; lia | split; [reflexivity |]]);
    repeat (apply List.NoDup_cons;
            [cbn [In]; intros H; repeat destruct H as [H | H]; discriminate || exact H |]);
    apply List.NoDup_nil.
Qed.

(** X13.  For a post whose identifier is not negative, the display date
    is built from year 2023, a month index from 0 to 11 and a day from 0
    to 27; the day is 0 exactly for identifiers divisible by 28. *)
Theorem X13_date_arguments_in_range (users : list User.t) (post : RawPost.t) :
  0 <= RawPost.id post ->
  let date := Post.date (enrichPost users post) in
  JsDate.year date = 2023 /\
  0 <= JsDate.monthIndex date <= 11 /\
  0 <= JsDate.day date <= 27 /\
  (JsDate.day date = 0 <-> (28 | RawPost.id post)).
Proof.
  intros Hid date. subst date. unfold enrichPost, js_rem.
  cbn [Post.date JsDate.year JsDate.monthIndex JsDate.day].
  pose proof (Z.rem_bound_pos (RawPost.id post) 12 Hid ltac:(lia)).
  pose proof (Z.rem_bound_pos (RawPost.id post) 28 Hid ltac:(lia)).
  repeat split; try lia.
  - intros H1. apply Z.rem_divide; [lia | exact H1].
  - intros H1. apply Z.rem_divide; [lia | exact H1].
Qed.

Lemma filterPosts_empty_query (P : list Post.t) :
  toLowerCase "" = "" -> filterPosts toLowerCase P "" = P.
Proof.
  intros Hempty. unfold filterPosts. apply filter_keeps_all. intros p _.
  unfold matchesSearch. now rewrite Hempty, includes_empty.
Qed.

(** X14.  When both requests succeed, the load ends with no error, the
    posts of the state are the posts of the response in the same order
    with their four fields untouched, and with an empty search box (whose
    lower-casing is the empty string) all of them are listed, newest
    first. *)
Theorem X14_successful_load_lists_every_post
    (stored : option (list Z)) (postsRes : list RawPost.t) (usersRes : list User.t)
    (users_first : bool) :
  toLowerCase "" = "" ->
  let s' := fetchData (Fulfilled postsRes) (Fulfilled usersRes) users_first
              (initialState stored) in
  loading s' = false /\ error s' = "" /\
  map Post.id (posts s') = map RawPost.id postsRes /\
  map Post.userId (posts s') = map RawPost.userId postsRes /\
  map Post.title (posts s') = map RawPost.title postsRes /\
  map Post.body (posts s') = map RawPost.body postsRes /\
  Permutation (filteredPosts (derive toLowerCase localeCompare s' "")) (posts s') /\
  StronglySorted (fun a b => Post.id b <= Post.id a)
    (filteredPosts (derive toLowerCase localeCompare s' "")).
Proof.
  intros Hempty s'. subst s'. cbn [fetchData Promise_all].
  cbn [loading error posts set_loading set_posts initialState].
  unfold enrich. rewrite !map_map. cbn [enrichPost Post.id Post.userId Post.title Post.body].
  repeat split; try reflexivity.
  - unfold derive. cbn [filteredPosts posts].
    rewrite filterPosts_empty_query by exact Hempty.
    apply sortPosts_perm.
  - unfold derive. cbn [filteredPosts sortBy]. apply sortPosts_newest.
Qed.

End Enrichment.

Lemma X14_successful_load_lists_every_post_witness :
  let postsRes := [Sample.rawPost 1 1 "sunt aut facere" "quia et suscipit";
                   Sample.rawPost 2 1 "qui est esse" "est rerum tempore vitae"] in
  let s' := fetchData (Fulfilled postsRes) (Fulfilled [Sample.leanne]) false
              (initialState None) in
  loading s' = false /\ error s' = "" /\
  map Post.id (posts s') = map RawPost.id postsRes /\
  map Post.userId (posts s') = map RawPost.userId postsRes /\
  map Post.title (posts s') = map RawPost.title postsRes /\
  map Post.body (posts s') = map RawPost.body postsRes /\
  Permutation
    (filteredPosts (derive Sample.toLowerCase Sample.firstLetterCompare s' ""))
    (posts s') /\
  StronglySorted (fun a b => Post.id b <= Post.id a)
    (filteredPosts (derive Sample.toLowerCase Sample.firstLetterCompare s' "")).
Proof.
  intros postsRes.
  apply (X14_successful_load_lists_every_post Sample.toLowerCase
           Sample.firstLetterCompare None postsRes [Sample.leanne] false).
  reflexivity.
Defined.

Lemma X13_date_arguments_in_range_witness :
  let date := Post.date (enrichPost [Sample.leanne] (Sample.rawPost 56 1 "t" "b")) in
  JsDate.year date = 2023 /\
  0 <= JsDate.monthIndex date <= 11 /\
  0 <= JsDate.day date <= 27 /\
  (JsDate.day date = 0 <-> (28 | RawPost.id (Sample.rawPost 56 1 "t" "b"))).
Proof.
  apply (X13_date_arguments_in_range [Sample.leanne] (Sample.rawPost 56 1 "t" "b")).
  cbn. lia.
Defined.

(** ** More on deleting *)

Section DeleteEdges.

Variable toLowerCase : string -> string.
Variable localeCompare : string -> string -> Z.


Lemma filterPosts_handleDelete (s : State) (postId : option Z) (debouncedSearch : string) :
  filterPosts toLowerCase (posts (handleDelete postId s)) debouncedSearch
  = List.filter
      (fun post => match postId with
                   | Some x => negb (Post.id post =? x)
                   | None => true
                   end)
      (filterPosts toLowerCase (posts s) debouncedSearch).
Proof.
  unfold handleDelete, filterPosts.
  cbn [posts set_deleteCandidate set_snackbar set_posts].
  induction (posts s) as [|p l IH]; [reflexivity |].
  cbn [List.filter].
  destruct (match postId with Some x => negb (Post.id p =? x) | None => true end) eqn:E1;
    destruct (matchesSearch toLowerCase debouncedSearch p) eqn:E2;
    cbn [List.filter]; rewrite ?E1, ?E2, IH; reflexivity.
Qed.

Lemma length_without_id (x : Z) (l : list Post.t) :
  List.NoDup (map Post.id l) ->
  (length l <= S (length (List.filter (fun q => negb (Post.id q =? x)%Z) l)))%nat.
Proof.
  intros Hnd.
  destruct (existsb (fun q => Post.id q =? x) l) eqn:E.
  - apply existsb_exists in E as [p [Hp Hx]]. apply Z.eqb_eq in Hx.
    apply in_split in Hp as [l1 [l2 ->]].
    rewrite (delete_by_id x l1 l2 p Hx Hnd). rewrite !length_app. cbn [length]. lia.
  - rewrite filter_keeps_all; [lia |].
    intros q Hq. apply negb_true_iff.
    destruct (Post.id q =? x) eqn:Eq; [| reflexivity].
    assert (existsb (fun q => Post.id q =? x) l = true)
      by (apply existsb_exists; now exists q).
    congruence.
Qed.

(** X16.  A delete never adds a page, and when the loaded posts have
    distinct identifiers it removes at most one: the new [pageCount] is
    the old one or the old one less 1. *)
Theorem X16_delete_changes_pageCount_by_at_most_one
    (s : State) (postId : option Z) (debouncedSearch : string) :
  postsPerPage s = 12 ->
  let before := pageCount (derive toLowerCase localeCompare s debouncedSearch) in
  let after := pageCount (derive toLowerCase localeCompare (handleDelete postId s) debouncedSearch) in
  after <= before /\
  (List.NoDup (map Post.id (posts s)) -> before - 1 <= after).
Proof.
  intros Hpp before after.
  pose proof (pageCount_bounds toLowerCase localeCompare s debouncedSearch Hpp) as Hb.
  pose proof (pageCount_bounds toLowerCase localeCompare (handleDelete postId s) debouncedSearch Hpp)
    as Ha.
  fold before in Hb. fold after in Ha.
  unfold derive in Hb, Ha. cbn [filteredPosts] in Hb, Ha.
  rewrite sortPosts_length in Hb, Ha. rewrite filterPosts_handleDelete in Ha.
  pose proof (List.filter_length_le
                (fun post => match postId with
                             | Some x => negb (Post.id post =? x)
                             | None => true
                             end)
                (filterPosts toLowerCase (posts s) debouncedSearch)) as Hle.
  split; [lia |]. intros Hnd.
  destruct postId as [x |].
  - pose proof (length_without_id x (filterPosts toLowerCase (posts s) debouncedSearch)
                  (NoDup_map_filter Post.id _ _ Hnd)) as Hge.
    lia.
  - rewrite filter_keeps_all in Ha by reflexivity. lia.
Qed.

End DeleteEdges.


Lemma X16_delete_changes_pageCount_by_at_most_one_witness :
  let s := Sample.loaded 13 2 in
  let before := pageCount (derive Sample.toLowerCase Sample.firstLetterCompare s "") in
  let after := pageCount (derive Sample.toLowerCase Sample.firstLetterCompare (handleDelete (Some 1) s) "") in
  after <= before /\
  (List.NoDup (map Post.id (posts s)) -> before - 1 <= after).
Proof.
  apply (X16_delete_changes_pageCount_by_at_most_one Sample.toLowerCase Sample.firstLetterCompare
           (Sample.loaded 13 2) (Some 1) "").
  reflexivity.
Defined.

(** ** The screen *)

Section Screen.

Variable toLowerCase : string -> string.
Variable localeCompare : string -> string -> Z.

Lemma alert_of_error (s : State) (debouncedSearch : string) :
  error s <> "" ->
  View.alert (View.render toLowerCase localeCompare s debouncedSearch) = Some (error s).
Proof.
  intros H. unfold View.render. cbn [View.alert].
  destruct (String.eqb_spec (error s) ""); [contradiction | reflexivity].
Qed.

(** X18.  After a failed load the screen shows the error alert with the
    classifier's message and, under it, the "No matching posts found"
    placeholder; there is no pager, whatever is typed in the search box. *)
Theorem X18_failed_load_screen
    (stored : option (list Z))
    (postsGet : Settled (list RawPost.t)) (usersGet : Settled (list User.t))
    (users_first : bool) (debouncedSearch : string) :
  isRejected postsGet \/ isRejected usersGet ->
  let screen :=
    View.render toLowerCase localeCompare
      (fetchData postsGet usersGet users_first (initialState stored)) debouncedSearch in
  View.grid screen = View.NoMatch /\
  View.pager screen = None /\
  exists err,
    (postsGet = Rejected err \/ usersGet = Rejected err) /\
    View.alert screen = Some (errorMessage err).
Proof.
  intros Hrej screen. subst screen.
  assert (H : exists err,
             (postsGet = Rejected err \/ usersGet = Rejected err) /\
             fetchData postsGet usersGet users_first (initialState stored)
             = set_loading false (handleError err (initialState stored))).
  { unfold fetchData.
    destruct postsGet as [postsRes | e1], usersGet as [usersRes | e2];
      cbn [Promise_all isRejected] in *.
    - tauto.
    - exists e2. split; [now right | reflexivity].
    - exists e1. split; [now left | reflexivity].
    - destruct users_first; [exists e2 | exists e1]; split; auto. }
  destruct H as [err [Herr ->]].
  repeat split; try reflexivity.
  exists err. split; [exact Herr |].
  rewrite alert_of_error; [reflexivity | apply errorMessage_nonempty].
Qed.

Lemma filteredPosts_length (s : State) (debouncedSearch : string) :
  length (filteredPosts (derive toLowerCase localeCompare s debouncedSearch))
  = length (filterPosts toLowerCase (posts s) debouncedSearch).
Proof. unfold derive. cbn [filteredPosts]. apply sortPosts_length. Qed.

Lemma filterPosts_nil_iff (P : list Post.t) (debouncedSearch : string) :
  length (filterPosts toLowerCase P debouncedSearch) = 0%nat <->
  forall p, In p P -> matchesSearch toLowerCase debouncedSearch p = false.
Proof.
  rewrite length_zero_iff_nil. unfold filterPosts. split.
  - intros H p Hp. destruct (matchesSearch toLowerCase debouncedSearch p) eqn:E; [| reflexivity].
    assert (Hin : In p (List.filter (matchesSearch toLowerCase debouncedSearch) P))
      by (apply filter_In; now split).
    rewrite H in Hin. destruct Hin.
  - intros H. induction P as [|p P IH]; [reflexivity |].
    cbn [List.filter]. rewrite (H p (or_introl eq_refl)).
    apply IH. intros q Hq. apply H. now right.
Qed.

(** X19.  The pager is hidden exactly while loading or when no post
    matches the search; when it is shown, it shows the current page and a
    page count of at least 1. *)
Theorem X19_pager_is_shown_iff_some_post_matches (s : State) (debouncedSearch : string) :
  postsPerPage s = 12 ->
  let d := derive toLowerCase localeCompare s debouncedSearch in
  (View.pager (View.render toLowerCase localeCompare s debouncedSearch) = None <->
   loading s = true \/
   forall p, In p (posts s) -> matchesSearch toLowerCase debouncedSearch p = false) /\
  (forall count page,
     View.pager (View.render toLowerCase localeCompare s debouncedSearch) = Some (count, page) ->
     count = pageCount d /\ page = currentPage s /\ 1 <= count).
Proof.
  intros Hpp d. subst d. unfold View.render. cbn [View.pager].
  pose proof (filteredPosts_length s debouncedSearch) as Hlen.
  pose proof (filterPosts_nil_iff (posts s) debouncedSearch) as Hnil.
  pose proof (pageCount_bounds toLowerCase localeCompare s debouncedSearch Hpp) as Hb.
  set (d := derive toLowerCase localeCompare s debouncedSearch) in *.
  destruct (loading s); cbn [negb andb].
  - split; [split; [now left | reflexivity] | discriminate].
  - destruct (Nat.ltb_spec 0 (length (filteredPosts d))) as [Hpos | Hzero].
    + split.
      * split; [discriminate |]. intros [Hl | Hno]; [discriminate |].
        apply Hnil in Hno. lia.
      * intros count page [= <- <-]. repeat split.
        change (1 <= pageCount d). lia.
    + split; [| discriminate]. split; [| reflexivity].
      intros _. right. apply Hnil. lia.
Qed.

Lemma slice_page_length {A : Type} (l : list A) (p : Z) :
  (length (JsArray.slice l (p * 12 - 12)%Z (Some (p * 12)%Z)) <= 12)%nat.
Proof.
  unfold JsArray.slice, JsArray.relative_index. rewrite length_firstn.
  destruct (Z.ltb_spec (p * 12 - 12) 0), (Z.ltb_spec (p * 12) 0); lia.
Qed.

Lemma In_slice {A : Type} (l : list A) (i : Z) (j : option Z) (a : A) :
  In a (JsArray.slice l i j) -> In a l.
Proof.
  unfold JsArray.slice.
  set (k := Z.to_nat (JsArray.relative_index _ i)). set (m := Z.to_nat _).
  intros H. rewrite <- (firstn_skipn k l). apply in_or_app. right.
  rewrite <- (firstn_skipn m (skipn k l)). apply in_or_app. now left.
Qed.

(** X20.  Every card of the grid belongs to a loaded post that matches
    the search; there are at most twelve cards; a card carries the "New"
    badge exactly when its identifier is at most 10, and a filled heart
    exactly when its identifier is among the favourites. *)
Theorem X20_cards_are_matching_posts
    (s : State) (debouncedSearch : string) (cards : list View.Card) :
  postsPerPage s = 12 ->
  View.grid (View.render toLowerCase localeCompare s debouncedSearch) = View.Cards cards ->
  (length cards <= 12)%nat /\
  forall c, In c cards ->
    In (View.cardPost c) (posts s) /\
    matchesSearch toLowerCase debouncedSearch (View.cardPost c) = true /\
    (View.badgeNew c = true <-> Post.id (View.cardPost c) <= 10) /\
    (View.heartFilled c = true <-> In (Post.id (View.cardPost c)) (favorites s)).
Proof.
  intros Hpp. unfold View.render. cbn [View.grid].
  destruct (loading s); [discriminate |].
  destruct (length (filteredPosts (derive toLowerCase localeCompare s debouncedSearch)) =? 0)%nat;
    [discriminate |].
  intros [= <-]. unfold derive. cbn [currentPosts]. rewrite Hpp. split.
  - rewrite List.length_map. apply slice_page_length.
  - intros c Hc. apply in_map_iff in Hc as [post [<- Hpost]].
    apply In_slice in Hpost.
    apply (Permutation_in _ (sortPosts_perm localeCompare _ _)) in Hpost.
    apply filter_In in Hpost as [Hin Hm].
    cbn [View.card View.cardPost View.badgeNew View.heartFilled].
    repeat split; trivial.
    + rewrite negb_true_iff, Z.ltb_ge. trivial.
    + now rewrite negb_true_iff, Z.ltb_ge.
    + apply array_includes_In.
    + apply array_includes_In.
Qed.

End Screen.

Lemma X18_failed_load_screen_witness :
  let screen :=
    View.render Sample.toLowerCase Sample.firstLetterCompare
      (fetchData (Fulfilled [Sample.rawPost 1 1 "sunt aut facere" "quia et suscipit"])
         (Rejected Sample.timeout) false (initialState None)) "" in
  View.grid screen = View.NoMatch /\
  View.pager screen = None /\
  exists err,
    (@Fulfilled (list RawPost.t) [Sample.rawPost 1 1 "sunt aut facere" "quia et suscipit"]
     = Rejected err \/
     @Rejected (list User.t) Sample.timeout = Rejected err) /\
    View.alert screen = Some (errorMessage err).
Proof.
  apply (X18_failed_load_screen Sample.toLowerCase Sample.firstLetterCompare None
           (Fulfilled [Sample.rawPost 1 1 "sunt aut facere" "quia et suscipit"])
           (Rejected Sample.timeout) false "").
  right. exact I.
Defined.

Lemma X19_pager_is_shown_iff_some_post_matches_witness :
  let s := Sample.loaded 13 2 in
  let d := derive Sample.toLowerCase Sample.firstLetterCompare s "" in
  (View.pager (View.render Sample.toLowerCase Sample.firstLetterCompare s "") = None <->
   loading s = true \/
   forall p, In p (posts s) -> matchesSearch Sample.toLowerCase "" p = false) /\
  (forall count page,
     View.pager (View.render Sample.toLowerCase Sample.firstLetterCompare s "") = Some (count, page) ->
     count = pageCount d /\ page = currentPage s /\ 1 <= count).
Proof.
  apply (X19_pager_is_shown_iff_some_post_matches Sample.toLowerCase Sample.firstLetterCompare
           (Sample.loaded 13 2) "").
  reflexivity.
Defined.

Lemma X20_cards_are_matching_posts_witness :
  let s := set_favorites [2] (Sample.loaded 3 1) in
  let cards := map (View.card s) (rev (Sample.numbered 1 3)) in
  (length cards <= 12)%nat /\
  forall c, In c cards ->
    In (View.cardPost c) (posts s) /\
    matchesSearch Sample.toLowerCase "" (View.cardPost c) = true /\
    (View.badgeNew c = true <-> Post.id (View.cardPost c) <= 10) /\
    (View.heartFilled c = true <-> In (Post.id (View.cardPost c)) (favorites s)).
Proof.
  intros s cards.
  apply (X20_cards_are_matching_posts Sample.toLowerCase Sample.firstLetterCompare s "" cards).
  - reflexivity.
  - reflexivity.
Defined.

(** ** More on sorting *)

Section SortOrder.

Context {A : Type}.

Lemma insert_filter_same (cmp : A -> A -> Z) (same : A -> bool) (a : A) (l : list A) :
  (forall x y, same x = true -> same y = true -> cmp x y <= 0) ->
  List.filter same (JsArray.insert cmp a l) = List.filter same (a :: l).
Proof.
  intros H. induction l as [|y l IH]; [reflexivity |].
  cbn [JsArray.insert]. destruct (Z.leb_spec (cmp a y) 0) as [Hle | Hgt]; [reflexivity |].
  cbn [List.filter] in *. rewrite IH.
  destruct (same a) eqn:Ea, (same y) eqn:Ey; try reflexivity.
  specialize (H a y Ea Ey). lia.
Qed.

Lemma sort_filter_same (cmp : A -> A -> Z) (same : A -> bool) (l : list A) :
  (forall x y, same x = true -> same y = true -> cmp x y <= 0) ->
  List.filter same (JsArray.sort cmp l) = List.filter same l.
Proof.
  intros H. induction l as [|a l IH]; [reflexivity |].
  cbn [JsArray.sort fold_right]. rewrite insert_filter_same by exact H.
  cbn [List.filter]. unfold JsArray.sort in IH. now rewrite IH.
Qed.

Lemma StronglySorted_snoc (R : A -> A -> Prop) (l : list A) (a : A) :
  StronglySorted R l -> List.Forall (fun x => R x a) l -> StronglySorted R (l ++ [a]).
Proof.
  induction 1 as [|b l Hl IH Hb]; intros Ha; cbn [app].
  - repeat constructor.
  - apply List.Forall_cons_iff in Ha as [Hba Ha].
    constructor; [now apply IH |].
    apply List.Forall_app. split; [exact Hb | now constructor].
Qed.

Lemma StronglySorted_rev (R : A -> A -> Prop) (l : list A) :
  StronglySorted R l -> StronglySorted (fun a b => R b a) (rev l).
Proof.
  induction 1 as [|a l Hl IH Ha]; cbn [rev]; [constructor |].
  apply StronglySorted_snoc; [exact IH |].
  apply List.Forall_forall. intros x Hx. apply in_rev in Hx.
  now apply (proj1 (List.Forall_forall _ _) Ha).
Qed.

Lemma sorted_perm_eq (R : A -> A -> Prop) (l1 l2 : list A) :
  StronglySorted R l1 -> StronglySorted R l2 -> Permutation l1 l2 ->
  (forall a b, In a l1 -> In b l1 -> R a b -> R b a -> a = b) ->
  l1 = l2.
Proof.
  revert l2. induction l1 as [|a l1 IH]; intros l2 H1 H2 Hp Hanti.
  - now apply Permutation_nil in Hp.
  - destruct l2 as [|b l2].
    + symmetry in Hp. now apply Permutation_nil in Hp.
    + apply StronglySorted_inv in H1 as [H1 Ha].
      apply StronglySorted_inv in H2 as [H2 Hb].
      assert (E : a = b).
      { assert (Hab : In a (b :: l2))
          by (apply (Permutation_in _ Hp); now left).
        assert (Hba : In b (a :: l1))
          by (apply (Permutation_in _ (Permutation_sym Hp)); now left).
        destruct Hab as [E | Hab]; [now symmetry |].
        destruct Hba as [E | Hba]; [exact E |].
        apply Hanti; [now left | now right | |].
        - now apply (proj1 (List.Forall_forall _ _) Ha).
        - now apply (proj1 (List.Forall_forall _ _) Hb). }
      subst b. f_equal. apply IH; trivial.
      * now apply Permutation_cons_inv in Hp.
      * intros x y Hx Hy. apply Hanti; now right.
Qed.

Lemma NoDup_map_injective {B : Type} (f : A -> B) (l : list A) (a b : A) :
  List.NoDup (map f l) -> In a l -> In b l -> f a = f b -> a = b.
Proof.
  induction l as [|c l IH]; intros H Ha Hb E; [destruct Ha |].
  cbn [map] in H. apply List.NoDup_cons_iff in H as [Hc Hl].
  destruct Ha as [-> | Ha], Hb as [-> | Hb]; trivial.
  - exfalso. apply Hc. rewrite E. now apply in_map.
  - exfalso. apply Hc. rewrite <- E. now apply in_map.
  - now apply IH.
Qed.

End SortOrder.

Section SortModes.

Variable toLowerCase : string -> string.
Variable localeCompare : string -> string -> Z.

(** X21.  The sort is stable on ties: under "alphabetical", the posts
    that share a title stay in the order the filter gave them (for a
    collation that rates a title equal to itself), and under "newest"
    and "oldest" so do posts that share an identifier. *)
Theorem X21_sort_keeps_ties_in_order (filtered : list Post.t) :
  (forall i mode, mode = "newest" \/ mode = "oldest" ->
     List.filter (fun p => Post.id p =? i) (sortPosts localeCompare mode filtered)
     = List.filter (fun p => Post.id p =? i) filtered) /\
  ((forall t, localeCompare t t <= 0) ->
   forall t,
     List.filter (fun p => String.eqb (Post.title p) t)
       (sortPosts localeCompare "alphabetical" filtered)
     = List.filter (fun p => String.eqb (Post.title p) t) filtered).
Proof.
  split.
  - intros i mode Hmode. apply sort_filter_same.
    intros x y Hx Hy. apply Z.eqb_eq in Hx, Hy.
    unfold comparePosts. destruct Hmode as [-> | ->]; cbn; lia.
  - intros Hrefl t. apply sort_filter_same.
    intros x y Hx Hy. apply String.eqb_eq in Hx, Hy.
    unfold comparePosts. cbn. rewrite Hx, Hy. apply Hrefl.
Qed.

(** X22.  When the posts have distinct identifiers, "oldest" lists them
    in exactly the reverse order of "newest". *)
Theorem X22_oldest_is_newest_reversed (filtered : list Post.t) :
  List.NoDup (map Post.id filtered) ->
  sortPosts localeCompare "oldest" filtered
  = rev (sortPosts localeCompare "newest" filtered).
Proof.
  intros Hnd.
  apply (sorted_perm_eq (fun a b => Post.id a <= Post.id b)).
  - apply sortPosts_oldest.
  - apply (StronglySorted_rev (fun a b => Post.id b <= Post.id a)).
    apply sortPosts_newest.
  - rewrite <- Permutation_rev. now rewrite !sortPosts_perm.
  - intros a b Ha Hb Hab Hba.
    apply (Permutation_in _ (sortPosts_perm localeCompare _ _)) in Ha, Hb.
    apply (NoDup_map_injective Post.id filtered); trivial. lia.
Qed.

End SortModes.

Lemma X21_sort_keeps_ties_in_order_witness :
  let filtered := [Sample.post 1 1 "qui est esse" "a"; Sample.post 2 1 "ea molestias" "b";
                   Sample.post 3 1 "qui est esse" "c"] in
  map Post.id
    (List.filter (fun p => String.eqb (Post.title p) "qui est esse")
       (sortPosts Sample.firstLetterCompare "alphabetical" filtered))
  = [1; 3].
Proof.
  intros filtered.
  rewrite (proj2 (X21_sort_keeps_ties_in_order Sample.firstLetterCompare filtered)).
  - reflexivity.
  - intros t. unfold Sample.firstLetterCompare. lia.
Defined.

Lemma X22_oldest_is_newest_reversed_witness :
  sortPosts Sample.firstLetterCompare "oldest" (Sample.numbered 1 3)
  = rev (sortPosts Sample.firstLetterCompare "newest" (Sample.numbered 1 3)).
Proof.
  apply (X22_oldest_is_newest_reversed Sample.firstLetterCompare (Sample.numbered 1 3)).
  vm_compute.
  repeat (apply List.NoDup_cons; [intros H; cbn in H; lia |]).
  apply List.NoDup_nil.
Defined.
